(** * practionnetworks/logger: a structured-logging facade over zerolog

    A shallow embedding of the package [logger] (config.go, logging.go) and
    the properties of its configuration builder, its one-time initialisation
    and its field-attachment logic.

    Go strings are byte strings ([string]).  The package-level variables
    ([initialized], [log.Logger], zerolog's globals) and the records handed
    to the writers form an explicit [State]; a call either returns or ends
    the process ([Result]).  The operating system (opening a file, dialling
    the collector, the process id, the call stack) is a record [OS] the
    functions that need it take as their first argument. *)

From Stdlib Require Import String Ascii List Bool ZArith Lia.
Import ListNotations.
Open Scope string_scope.
Open Scope list_scope.

(* ================================================================== *)
(** * Errors *)
(* ================================================================== *)

Definition StackTrace : Type := list string.

(** Go [error] values that are not [nil]: an error made from a message
    ([errors.New], and the errors of [os] and [net]) and pkg/errors'
    [withStack] wrapper. *)
Inductive error : Type :=
| errors_New (msg : string)
| withStack (err : error) (stack : StackTrace).

(** [err.Error()]: [withStack] answers with the message of what it wraps. *)
Fixpoint err_Error (err : error) : string :=
  match err with
  | errors_New msg => msg
  | withStack e _ => err_Error e
  end.

(* ================================================================== *)
(** * config.go *)
(* ================================================================== *)

(** [type Config struct], fields in the order of the source. *)
Record Config : Type := mkConfig {
  ServiceName        : string;
  Pod                : string;
  LogLevel           : string;
  LogAnalyserAddress : string;
  LogAnalyserEnabled : bool;
  Console            : bool;
  LogFilePath        : string
}.

(** [Config{}]: every string empty, every bool false. *)
Definition zero_Config : Config :=
  mkConfig "" "" "" "" false false "".

(** The two messages given to [errors.New] in [NewLogger]. *)
Definition errNoDestination : error :=
  errors_New
    "at least one logging option (Console, LogFile, LogAnalyserAddress) must be selected".

Definition errNoIdentity : error :=
  errors_New "service name and PodName must be provided".

(** [func NewLogger(serviceName, console, pod, logFilePath,
    logAnalyserAddress, logLevel, LogAnalyserEnabled) (Config, error)].
    The error result is [None] for Go's [nil].  The function reads and
    writes no package-level variable, hence a pure function of its seven
    arguments. *)
Definition NewLogger (serviceName : string) (console : bool) (pod : string)
    (logFilePath : string) (logAnalyserAddress : string) (logLevel : string)
    (logAnalyserEnabled : bool) : Config * option error :=
  if negb console && (logFilePath =? "") && (logAnalyserAddress =? "") then
    (zero_Config, Some errNoDestination)
  else if (serviceName =? "") && (pod =? "") then
    (zero_Config, Some errNoIdentity)
  else
    ({| ServiceName        := serviceName;
        Pod                := pod;
        LogLevel           := logLevel;
        LogAnalyserAddress := logAnalyserAddress;
        LogAnalyserEnabled := logAnalyserEnabled;
        Console            := console;
        LogFilePath        := logFilePath |}, None).

(** The two invariants as the specification words them (its section 3),
    kept apart from what [NewLogger] tests. *)
Definition spec_has_destination (console : bool) (logFilePath : string)
    (logAnalyserEnabled : bool) : Prop :=
  console = true \/ logFilePath <> "" \/ logAnalyserEnabled = true.

Definition has_identity (serviceName pod : string) : Prop :=
  serviceName <> "" \/ pod <> "".

(** The destination test of the source: the collector counts through its
    address, not through its enabling flag. *)
Definition has_destination (console : bool) (logFilePath : string)
    (logAnalyserAddress : string) : Prop :=
  console = true \/ logFilePath <> "" \/ logAnalyserAddress <> "".

(* ================================================================== *)
(** * The collaborators: io, os, net and zerolog *)
(* ================================================================== *)

(** An open file and an open connection, by their descriptors. *)
Definition File : Type := Z.
Definition Conn : Type := Z.

(** [type LogstashWriter struct { conn net.Conn }]. *)
Record LogstashWriter : Type := mkLogstashWriter { conn : Conn }.

(** The [io.Writer] values the package builds. *)
#[warning="-register-all"]
Inductive Writer : Type :=
| Stdout
| Stderr
| OsFile (f : File)
| Logstash (w : LogstashWriter)
| MultiWriter (writers : list Writer).

(** What the package asks of the operating system. *)
Record OS : Type := mkOS {
  os_OpenFile     : string -> File + error;
  net_Dial        : string -> string -> Conn + error;
  os_Getpid       : Z;
  runtime_callers : StackTrace
}.

(** [errors.WithStack(err)] of pkg/errors, for an [err] that is not nil. *)
Definition errors_WithStack (os : OS) (err : error) : error :=
  withStack err (runtime_callers os).

(** [func NewLogstashWriter(network, address string)], which returns the
    writer or the error of [net.Dial]. *)
Definition NewLogstashWriter (os : OS) (network address : string)
  : LogstashWriter + error :=
  match net_Dial os network address with
  | inr err => inr err
  | inl c => inl (mkLogstashWriter c)
  end.

(** [zerolog.Level], with the numbers zerolog gives them. *)
Inductive Level : Type :=
| TraceLevel | DebugLevel | InfoLevel | WarnLevel | ErrorLevel
| FatalLevel | PanicLevel | NoLevel | Disabled.

Definition level_rank (l : Level) : Z :=
  match l with
  | TraceLevel => -1
  | DebugLevel => 0
  | InfoLevel  => 1
  | WarnLevel  => 2
  | ErrorLevel => 3
  | FatalLevel => 4
  | PanicLevel => 5
  | NoLevel    => 6
  | Disabled   => 7
  end.

(** A value of type [interface{}] ([any]), as the variadic [fields] carry
    them. *)
Inductive Any : Type :=
| VString (s : string)
| VError (e : error)
| VInt (n : Z)
| VBool (b : bool)
| VNil.

(** One entry of a record: what a call on a zerolog [Context] or [Event]
    appends. *)
Inductive Entry : Type :=
| EStr (key val : string)
| EInt (key : string) (n : Z)
| EInterface (key : string) (v : Any)
| EErr (stack : bool) (err : error)
| ETimestamp
| ECaller (skipFrameCount : Z).

(** [zerolog.Logger]: where it writes, its minimum level, and the entries
    every record starts with. *)
Record Logger : Type := mkLogger {
  lg_w       : Writer;
  lg_level   : Level;
  lg_context : list Entry
}.

(** A record given to a writer. *)
Record LogRecord : Type := mkLogRecord {
  rec_level   : Level;
  rec_entries : list Entry;
  rec_message : string
}.

(** The package-level variables and the writes made so far, oldest first. *)
Record State : Type := mkState {
  initialized     : bool;
  log_Logger      : Logger;
  TimeFieldFormat : string;
  gLevel          : Level;
  written         : list (Writer * LogRecord)
}.

Definition set_initialized (b : bool) (st : State) : State :=
  mkState b (log_Logger st) (TimeFieldFormat st) (gLevel st) (written st).

Definition set_log_Logger (l : Logger) (st : State) : State :=
  mkState (initialized st) l (TimeFieldFormat st) (gLevel st) (written st).

Definition set_TimeFieldFormat (f : string) (st : State) : State :=
  mkState (initialized st) (log_Logger st) f (gLevel st) (written st).

Definition write (w : Writer) (r : LogRecord) (st : State) : State :=
  mkState (initialized st) (log_Logger st) (TimeFieldFormat st) (gLevel st)
          (written st ++ [(w, r)]).

(** A call returns a value in a new state, or ends the process
    ([os.Exit(code)]). *)
Inductive Result (A : Type) : Type :=
| Ret (a : A) (st : State)
| Exit (code : Z) (st : State).

Arguments Ret {A} a st.
Arguments Exit {A} code st.

Definition M (A : Type) : Type := State -> Result A.

Definition ret {A : Type} (a : A) : M A := fun st => Ret a st.

Definition bind {A B : Type} (m : M A) (k : A -> M B) : M B :=
  fun st =>
    match m st with
    | Ret a st' => k a st'
    | Exit code st' => Exit code st'
    end.

Notation "x <- m ;; k" := (bind m (fun x => k))
  (at level 61, m at next level, right associativity).
Notation "m ;;; k" := (bind m (fun _ => k))
  (at level 61, right associativity).

Definition get : M State := fun st => Ret st st.
Definition modify (f : State -> State) : M unit := fun st => Ret tt (f st).
Definition os_Exit {A : Type} (code : Z) : M A := fun st => Exit code st.

(** ** zerolog *)

(** [zerolog.Event]: [None] is the nil event of a level that is filtered
    out, on which every method does nothing. *)
Record EventData : Type := mkEvent {
  ev_w       : Writer;
  ev_level   : Level;
  ev_stack   : bool;
  ev_entries : list Entry
}.

Definition Event : Type := option EventData.

(** [Logger.should]: the level is neither below the logger's nor below the
    global one. *)
Definition should (g : Level) (l : Logger) (lvl : Level) : bool :=
  (level_rank (lg_level l) <=? level_rank lvl)%Z
  && (level_rank g <=? level_rank lvl)%Z.

Definition newEvent (g : Level) (l : Logger) (lvl : Level) : Event :=
  if should g l lvl then Some (mkEvent (lg_w l) lvl false (lg_context l))
  else None.

(** [Logger.WithLevel]: an event of that level; the levels fatal and panic
    do not end the process here. *)
Definition WithLevel (g : Level) (l : Logger) (lvl : Level) : Event :=
  match lvl with
  | Disabled => None
  | _ => newEvent g l lvl
  end.

Definition append_entry (x : Entry) (e : Event) : Event :=
  match e with
  | None => None
  | Some d =>
      Some (mkEvent (ev_w d) (ev_level d) (ev_stack d) (ev_entries d ++ [x]))
  end.

Definition Event_Str (key val : string) (e : Event) : Event :=
  append_entry (EStr key val) e.

Definition Event_Interface (key : string) (v : Any) (e : Event) : Event :=
  append_entry (EInterface key v) e.

Definition Event_Stack (e : Event) : Event :=
  match e with
  | None => None
  | Some d => Some (mkEvent (ev_w d) (ev_level d) true (ev_entries d))
  end.

Definition Event_Err (err : error) (e : Event) : Event :=
  match e with
  | None => None
  | Some d => append_entry (EErr (ev_stack d) err) e
  end.

(** [Event.Msg]: the record goes to the writer of the logger the event
    came from; a nil event writes nothing. *)
Definition Event_Msg (e : Event) (msg : string) : M unit :=
  match e with
  | None => ret tt
  | Some d => modify (write (ev_w d) (mkLogRecord (ev_level d) (ev_entries d) msg))
  end.

(** [zerolog.New(w)]. *)
Definition zerolog_New (w : Writer) : Logger := mkLogger w TraceLevel [].

(** The calls on [Logger.With()]: each appends an entry to the logger.
    [Str] and [Int] add fields of the context; [Timestamp] and
    [CallerWithSkipFrameCount] install hooks, whose entries [ETimestamp]
    and [ECaller] are kept in the same list ([is_hook] tells them apart). *)
Definition With_entry (x : Entry) (l : Logger) : Logger :=
  mkLogger (lg_w l) (lg_level l) (lg_context l ++ [x]).

(** [Logger.Level(lvl)]. *)
Definition Logger_Level (lvl : Level) (l : Logger) : Logger :=
  mkLogger (lg_w l) lvl (lg_context l).

(** [Logger.Output(w)]: a logger on [w] with the same level and context. *)
Definition Logger_Output (w : Writer) (l : Logger) : Logger :=
  mkLogger w (lg_level l) (lg_context l).

(** [log.Warn()], [log.Error()], [log.WithLevel(lvl)]: events of the
    package-level logger. *)
Definition log_event (lvl : Level) : M Event :=
  st <- get ;; ret (newEvent (gLevel st) (log_Logger st) lvl).

Definition log_WithLevel (lvl : Level) : M Event :=
  st <- get ;; ret (WithLevel (gLevel st) (log_Logger st) lvl).

(** [log.Fatal().Err(err).Msg(msg)]: the record is written when the level
    passes, and the process exits with status 1 in either case. *)
Definition log_Fatal_Err_Msg {A : Type} (err : error) (msg : string) : M A :=
  e <- log_event FatalLevel ;;
  Event_Msg (Event_Err err e) msg ;;;
  os_Exit 1.

Definition RFC3339 : string := "2006-01-02T15:04:05Z07:00".

(* ================================================================== *)
(** * logging.go *)
(* ================================================================== *)

(** ** Case mapping

    [strings.ToUpper] and [strings.ToLower] on UTF-8 bytes.  The ASCII
    letters are mapped byte by byte.  Outside ASCII, Unicode maps two runes
    to an ASCII capital, U+0131 (bytes C4 B1) to I and U+017F (C5 BF) to S,
    and two runes to an ASCII small letter, U+0130 (C4 B0) to i and
    U+212A (E2 84 AA) to k.  Every other rune that is not ASCII has an
    image that is not ASCII; such a rune is left in place here, which no
    comparison with an ASCII literal can tell from its image. *)

Definition byte (n : nat) : ascii := ascii_of_nat n.

Definition upper_byte (c : ascii) : ascii :=
  let n := nat_of_ascii c in
  if (97 <=? n)%nat && (n <=? 122)%nat then ascii_of_nat (n - 32) else c.

Definition lower_byte (c : ascii) : ascii :=
  let n := nat_of_ascii c in
  if (65 <=? n)%nat && (n <=? 90)%nat then ascii_of_nat (n + 32) else c.

Fixpoint ToUpper (s : string) : string :=
  match s with
  | EmptyString => EmptyString
  | String c rest =>
      match rest with
      | String d rest' =>
          if Ascii.eqb c (byte 196) && Ascii.eqb d (byte 177) then
            String "I" (ToUpper rest')
          else if Ascii.eqb c (byte 197) && Ascii.eqb d (byte 191) then
            String "S" (ToUpper rest')
          else String (upper_byte c) (ToUpper rest)
      | EmptyString => String (upper_byte c) EmptyString
      end
  end.

Fixpoint ToLower (s : string) : string :=
  match s with
  | EmptyString => EmptyString
  | String c rest =>
      match rest with
      | String d rest' =>
          if Ascii.eqb c (byte 196) && Ascii.eqb d (byte 176) then
            String "i" (ToLower rest')
          else
            match rest' with
            | String e rest'' =>
                if Ascii.eqb c (byte 226) && Ascii.eqb d (byte 132)
                   && Ascii.eqb e (byte 170) then
                  String "k" (ToLower rest'')
                else String (lower_byte c) (ToLower rest)
            | EmptyString => String (lower_byte c) (ToLower rest)
            end
      | EmptyString => String (lower_byte c) EmptyString
      end
  end.

(** A string of ASCII bytes only. *)
Fixpoint is_ascii (s : string) : bool :=
  match s with
  | EmptyString => true
  | String c rest => (nat_of_ascii c <? 128)%nat && is_ascii rest
  end.

(** [func parseLogLevel(level string) zerolog.Level]: the switch on
    [strings.ToUpper(level)], cases in the order of the source. *)
Definition parseLogLevel (level : string) : Level :=
  let u := ToUpper level in
  if u =? "DEBUG" then DebugLevel
  else if u =? "INFO" then InfoLevel
  else if u =? "WARN" then WarnLevel
  else if u =? "ERROR" then ErrorLevel
  else if u =? "FATAL" then FatalLevel
  else if u =? "PANIC" then PanicLevel
  else if u =? "TRACE" then TraceLevel
  else InfoLevel.

(** The seven level names of the specification and their levels. *)
Definition level_names : list (string * Level) :=
  [ ("trace", TraceLevel); ("debug", DebugLevel); ("info", InfoLevel);
    ("warn", WarnLevel); ("error", ErrorLevel); ("fatal", FatalLevel);
    ("panic", PanicLevel) ].

(** ** InitLogger *)

(** [writers = append(writers, w)]. *)
Definition append_writer (writers : list Writer) (w : Writer) : list Writer :=
  writers ++ [w].

(** The body of [InitLogger]; the two revisions of logging.go differ only
    in how they turn [config.LogLevel] into a level, which is [normalize]. *)
Definition InitLogger_with (normalize : string -> Level) (os : OS)
    (config : Config) : M unit :=
  st <- get ;;
  if initialized st then
    e <- log_event WarnLevel ;;
    Event_Msg e "Logger already initialized, skipping re-initialization"
  else
    modify (set_TimeFieldFormat RFC3339) ;;;
    let writers : list Writer := [] in
    (* Add console output if enabled *)
    let writers :=
      if Console config then append_writer writers Stdout else writers in
    (* Add file output if provided *)
    writers <-
      (if negb (LogFilePath config =? "") then
         match os_OpenFile os (LogFilePath config) with
         | inr err => log_Fatal_Err_Msg err "Failed to open log file"
         | inl file =>
             modify (fun st =>
               set_log_Logger (Logger_Output (OsFile file) (log_Logger st)) st) ;;;
             ret (append_writer writers (OsFile file))
         end
       else ret writers) ;;
    writers <-
      (if LogAnalyserEnabled config then
         match NewLogstashWriter os "tcp" (LogAnalyserAddress config) with
         | inr err => log_Fatal_Err_Msg err "Failed to create Logstash writer"
         | inl logstashWriter =>
             ret (append_writer writers (Logstash logstashWriter))
         end
       else ret writers) ;;
    (* Use MultiWriter to combine outputs *)
    let multiWriter :=
      if (0 <? length writers)%nat then MultiWriter writers else Stdout in
    (* Convert log level string to zerolog.Level *)
    let logLevel := normalize (LogLevel config) in
    (* Initialize logger with JSON formatter *)
    modify (set_log_Logger
      (Logger_Output multiWriter
        (Logger_Level logLevel
          (With_entry (ECaller 3)
            (With_entry (EInt "pid" (os_Getpid os))
              (With_entry (EStr "pod" (Pod config))
                (With_entry (EStr "service" (ServiceName config))
                  (With_entry ETimestamp
                    (zerolog_New multiWriter))))))))) ;;;
    modify (set_initialized true).

(** [func InitLogger(config Config)], the revision with [parseLogLevel]. *)
Definition InitLogger (os : OS) (config : Config) : M unit :=
  InitLogger_with parseLogLevel os config.

(** ** Leveled logging with untyped fields *)

(** The loop of [logWithFields] over an even-length list, two elements at
    a time: a pair of strings is attached, the first pair that is not
    leaves the loop with a diagnostic. *)
Fixpoint logWithFields_loop (fields : list Any) (event : Event) : Event :=
  match fields with
  | VString key :: VString value :: rest =>
      logWithFields_loop rest (Event_Str key value event)
  | _ :: _ :: _ =>
      Event_Interface "fields_error"
        (VString "key-value pairs must be strings") event
  | _ => event
  end.

(** [func logWithFields(level zerolog.Level, message string,
    fields ...interface{})]. *)
Definition logWithFields (level : Level) (message : string)
    (fields : list Any) : M unit :=
  event <- log_WithLevel level ;;
  let event :=
    if negb (length fields mod 2 =? 0)%nat then
      Event_Interface "fields_error"
        (VString "uneven number of key-value pairs") event
    else logWithFields_loop fields event in
  Event_Msg event message.

Definition Info (message : string) (fields : list Any) : M unit :=
  logWithFields InfoLevel message fields.

Definition Debug (message : string) (fields : list Any) : M unit :=
  logWithFields DebugLevel message fields.

Definition Warn (message : string) (fields : list Any) : M unit :=
  logWithFields WarnLevel message fields.

Definition Error (message : string) (fields : list Any) : M unit :=
  logWithFields ErrorLevel message fields.

Definition Fatal (message : string) (fields : list Any) : M unit :=
  logWithFields FatalLevel message fields.

Definition Panic (message : string) (fields : list Any) : M unit :=
  logWithFields PanicLevel message fields.

Definition Trace (message : string) (fields : list Any) : M unit :=
  logWithFields TraceLevel message fields.

(** [func ErrorWithError(err error, fields ...interface{})] and its
    siblings, for an [err] that is not nil. *)
Definition WarnWithError (os : OS) (err : error) (fields : list Any) : M unit :=
  logWithFields WarnLevel (err_Error err)
    (fields ++ [VString "error"; VError (errors_WithStack os err)]).

Definition ErrorWithError (os : OS) (err : error) (fields : list Any) : M unit :=
  logWithFields ErrorLevel (err_Error err)
    (fields ++ [VString "error"; VError (errors_WithStack os err)]).

Definition FatalWithError (os : OS) (err : error) (fields : list Any) : M unit :=
  logWithFields FatalLevel (err_Error err)
    (fields ++ [VString "error"; VError (errors_WithStack os err)]).

Definition PanicWithError (os : OS) (err : error) (fields : list Any) : M unit :=
  logWithFields PanicLevel (err_Error err)
    (fields ++ [VString "error"; VError (errors_WithStack os err)]).

Definition TraceWithError (os : OS) (err : error) (fields : list Any) : M unit :=
  logWithFields TraceLevel (err_Error err)
    (fields ++ [VString "error"; VError (errors_WithStack os err)]).

(** The public leveled functions with the level each one logs at. *)
Definition leveled_api : list ((string -> list Any -> M unit) * Level) :=
  [ (Trace, TraceLevel); (Debug, DebugLevel); (Info, InfoLevel);
    (Warn, WarnLevel); (Error, ErrorLevel); (Fatal, FatalLevel);
    (Panic, PanicLevel) ].

(** ** The revision of logging.go with typed fields

    The same file with [fields ...Field]: the level is found by an inline
    switch on [strings.ToLower], and the error functions attach the error
    to the event themselves. *)
Module TypedFields.

(** [type Field struct { Key string; Value string }]. *)
Record Field : Type := mkField { Key : string; Value : string }.

(** The switch on [strings.ToLower(config.LogLevel)] inside [InitLogger],
    cases in the order of the source. *)
Definition logLevel_switch (level : string) : Level :=
  let l := ToLower level in
  if l =? "debug" then DebugLevel
  else if l =? "info" then InfoLevel
  else if l =? "warn" then WarnLevel
  else if l =? "error" then ErrorLevel
  else if l =? "fatal" then FatalLevel
  else if l =? "panic" then PanicLevel
  else if l =? "trace" then TraceLevel
  else InfoLevel.

Definition InitLogger (os : OS) (config : Config) : M unit :=
  InitLogger_with logLevel_switch os config.

(** [for _, field := range fields { event = event.Str(field.Key, field.Value) }]. *)
Definition attach (fields : list Field) (event : Event) : Event :=
  fold_left (fun e field => Event_Str (Key field) (Value field) e) fields event.

(** [func ErrorWithError(err error, fields ...Field)]. *)
Definition ErrorWithError (os : OS) (err : error) (fields : list Field)
  : M unit :=
  e <- log_event ErrorLevel ;;
  let event := Event_Err (errors_WithStack os err) (Event_Stack e) in
  Event_Msg (attach fields event) (err_Error err).

(** [func Info(message string, fields ...Field)] and the other leveled
    functions that return: each takes its event from the package-level
    logger, attaches the fields and sends the message. *)
Definition Info (message : string) (fields : list Field) : M unit :=
  e <- log_event InfoLevel ;; Event_Msg (attach fields e) message.

Definition Debug (message : string) (fields : list Field) : M unit :=
  e <- log_event DebugLevel ;; Event_Msg (attach fields e) message.

Definition Warn (message : string) (fields : list Field) : M unit :=
  e <- log_event WarnLevel ;; Event_Msg (attach fields e) message.

Definition Error (message : string) (fields : list Field) : M unit :=
  e <- log_event ErrorLevel ;; Event_Msg (attach fields e) message.

Definition Trace (message : string) (fields : list Field) : M unit :=
  e <- log_event TraceLevel ;; Event_Msg (attach fields e) message.

(** [func Fatal(message string, fields ...Field)]: [log.Fatal()] ends the
    process with status 1 once the message is sent, and also when the
    level is filtered out. *)
Definition Fatal (message : string) (fields : list Field) : M unit :=
  e <- log_event FatalLevel ;;
  Event_Msg (attach fields e) message ;;;
  os_Exit 1.

Definition WarnWithError (os : OS) (err : error) (fields : list Field)
  : M unit :=
  e <- log_event WarnLevel ;;
  let event := Event_Err (errors_WithStack os err) (Event_Stack e) in
  Event_Msg (attach fields event) (err_Error err).

Definition TraceWithError (os : OS) (err : error) (fields : list Field)
  : M unit :=
  e <- log_event TraceLevel ;;
  let event := Event_Err (errors_WithStack os err) (Event_Stack e) in
  Event_Msg (attach fields event) (err_Error err).

Definition FatalWithError (os : OS) (err : error) (fields : list Field)
  : M unit :=
  e <- log_event FatalLevel ;;
  let event := Event_Err (errors_WithStack os err) (Event_Stack e) in
  Event_Msg (attach fields event) (err_Error err) ;;;
  os_Exit 1.

(** The leveled functions that return, with their levels, and the error
    functions that return. *)
Definition leveled_api : list ((string -> list Field -> M unit) * Level) :=
  [ (Trace, TraceLevel); (Debug, DebugLevel); (Info, InfoLevel);
    (Warn, WarnLevel); (Error, ErrorLevel) ].

Definition with_error_api
  : list ((OS -> error -> list Field -> M unit) * Level) :=
  [ (TraceWithError, TraceLevel); (WarnWithError, WarnLevel);
    (ErrorWithError, ErrorLevel) ].

(** The entries the fields of a call become, and string pairs as fields. *)
Definition entries (fields : list Field) : list Entry :=
  map (fun field => EStr (Key field) (Value field)) fields.

Definition of_pairs (kvs : list (string * string)) : list Field :=
  map (fun kv => mkField (fst kv) (snd kv)) kvs.

End TypedFields.

(* ================================================================== *)
(** * Vocabulary of the statements *)
(* ================================================================== *)

(** The level passes the package-level logger of [st]. *)
Definition enabled (st : State) (lvl : Level) : bool :=
  match lvl with
  | Disabled => false
  | _ => should (gLevel st) (log_Logger st) lvl
  end.

(** One record of level [lvl] handed to the package-level logger: its
    entries are the logger's context followed by [entries].  The logger
    writes it to its writer when the level passes and drops it otherwise;
    nothing else in the state changes. *)
Definition emit (lvl : Level) (entries : list Entry) (msg : string)
    (st : State) : State :=
  if enabled st lvl then
    write (lg_w (log_Logger st))
          (mkLogRecord lvl (lg_context (log_Logger st) ++ entries) msg) st
  else st.

(** The writes a call has made when it ends, oldest first. *)
Definition written_of {A : Type} (r : Result A) : list (Writer * LogRecord) :=
  match r with
  | Ret _ st => written st
  | Exit _ st => written st
  end.

(** The message of the warning of a repeated [InitLogger]. *)
Definition already_initialized : string :=
  "Logger already initialized, skipping re-initialization".

(** The two diagnostics of [logWithFields]. *)
Definition diag_uneven : Entry :=
  EInterface "fields_error" (VString "uneven number of key-value pairs").

Definition diag_strings : Entry :=
  EInterface "fields_error" (VString "key-value pairs must be strings").

Definition is_string (v : Any) : bool :=
  match v with VString _ => true | _ => false end.


(** String pairs as the caller writes them in the variadic list. *)
Fixpoint flatten_pairs (kvs : list (string * string)) : list Any :=
  match kvs with
  | [] => []
  | (k, v) :: rest => VString k :: VString v :: flatten_pairs rest
  end.

Definition str_entries (kvs : list (string * string)) : list Entry :=
  map (fun kv => EStr (fst kv) (snd kv)) kvs.

(** The entries [logWithFields] appends for a field list. *)
Fixpoint loop_entries (fields : list Any) : list Entry :=
  match fields with
  | VString key :: VString value :: rest => EStr key value :: loop_entries rest
  | _ :: _ :: _ => [diag_strings]
  | _ => []
  end.

Definition field_entries (fields : list Any) : list Entry :=
  if Nat.odd (length fields) then [diag_uneven] else loop_entries fields.

(** [map] on the bytes of a string. *)
Fixpoint map_bytes (f : ascii -> ascii) (s : string) : string :=
  match s with
  | EmptyString => EmptyString
  | String c rest => String (f c) (map_bytes f rest)
  end.

(** U+0131, small dotless i, and U+0130, capital I with a dot, in UTF-8. *)
Definition dotless_i : string := String (byte 196) (String (byte 177) "").
Definition dotted_I : string := String (byte 196) (String (byte 176) "").

(** ** Concrete values for the examples *)

(** An operating system in which every file opens on descriptor 3 and every
    dial gives connection 4. *)
Definition os_ok : OS :=
  mkOS (fun _ => inl 3%Z) (fun _ _ => inl 4%Z) 4242%Z ["main.main"].

(** A process that has not called [InitLogger]: a logger on standard error
    that lets every level through. *)
Definition st_fresh : State :=
  mkState false (With_entry ETimestamp (zerolog_New Stderr)) "" TraceLevel [].

(** A process whose logger lets warnings and above through. *)
Definition st_warn : State :=
  mkState true (mkLogger Stdout WarnLevel [EStr "service" "svc"]) RFC3339
          TraceLevel [].

Definition cfg_console : Config :=
  mkConfig "svc" "" "debug" "" false true "".

Definition cfg_all : Config :=
  mkConfig "svc" "pod-1" "warn" "collector:5000" true true "/var/log/svc.log".

(** ** The first revision of config.go

    The collector is an [io.Writer] the caller passes, [nil] when there is
    none. *)
Module FirstRevision.

Record Config : Type := mkConfig {
  ServiceName : string;
  Pod         : string;
  LogLevel    : string;
  LogAnalyser : option Writer;
  Console     : bool;
  LogFilePath : string
}.

Definition zero_Config : Config := mkConfig "" "" "" None false "".

Definition errNoDestination : error :=
  errors_New
    "at least one logging option (Console, LogFile, LogAnalyser) must be selected".

(** [func DefaultConfig(serviceName, console, pod, logFilePath, logAnalyser,
    logLevel) (Config, error)]. *)
Definition DefaultConfig (serviceName : string) (console : bool)
    (pod : string) (logFilePath : string) (logAnalyser : option Writer)
    (logLevel : string) : Config * option error :=
  if negb console && (logFilePath =? "")
     && (match logAnalyser with None => true | Some _ => false end) then
    (zero_Config, Some errNoDestination)
  else if (serviceName =? "") && (pod =? "") then
    (zero_Config, Some errNoIdentity)
  else
    ({| ServiceName := serviceName;
        Pod         := pod;
        LogLevel    := logLevel;
        Console     := console;
        LogFilePath := logFilePath;
        LogAnalyser := logAnalyser |}, None).

End FirstRevision.

(** ** More vocabulary *)

(** The error functions of the revision with untyped fields, with the
    level each one logs at. *)
Definition with_error_api
  : list ((OS -> error -> list Any -> M unit) * Level) :=
  [ (TraceWithError, TraceLevel); (WarnWithError, WarnLevel);
    (ErrorWithError, ErrorLevel); (FatalWithError, FatalLevel);
    (PanicWithError, PanicLevel) ].

(** The entries [InitLogger] puts in the context of the logger. *)
Definition fixed_fields (os : OS) (config : Config) : list Entry :=
  [ETimestamp; EStr "service" (ServiceName config); EStr "pod" (Pod config);
   EInt "pid" (os_Getpid os); ECaller 3].

(** A call of a public function of the revision with untyped fields. *)
Inductive api_call : M unit -> Prop :=
| api_InitLogger (os : OS) (config : Config) :
    api_call (InitLogger os config)
| api_leveled f lvl (message : string) (fields : list Any) :
    In (f, lvl) leveled_api -> api_call (f message fields)
| api_with_error f lvl (os : OS) (err : error) (fields : list Any) :
    In (f, lvl) with_error_api -> api_call (f os err fields).

(** Calls made one after the other. *)
Fixpoint seq_calls (calls : list (M unit)) : M unit :=
  match calls with
  | [] => ret tt
  | call :: rest => call ;;; seq_calls rest
  end.

(** The string pairs at the front of a field list, up to the first pair
    that is not a pair of strings or to the end of the list. *)
Fixpoint leading_pairs (fields : list Any) : list (string * string) :=
  match fields with
  | VString key :: VString value :: rest => (key, value) :: leading_pairs rest
  | _ => []
  end.

(** The entries of the two hooks of a logger, the timestamp and the
    caller.  zerolog runs its hooks when the message is sent, so in the
    bytes written their output stands after the fields of the context and
    of the call; the place these entries have in [lg_context] and in
    [rec_entries] says nothing of that.  [field_part] and [hook_part] take
    a list of entries apart: the fields in their order, the hooks in
    theirs. *)
Definition is_hook (x : Entry) : bool :=
  match x with
  | ETimestamp | ECaller _ => true
  | _ => false
  end.

Definition field_part (entries : list Entry) : list Entry :=
  filter (fun x => negb (is_hook x)) entries.

Definition hook_part (entries : list Entry) : list Entry :=
  filter is_hook entries.

(** The seven levels a configuration can select. *)
Definition selectable (lvl : Level) : bool :=
  match lvl with
  | NoLevel | Disabled => false
  | _ => true
  end.

(* ================================================================== *)
(** * Properties of the configuration builder *)
(* ================================================================== *)

Section ConfigFacts.

Lemma no_destination_guard (console : bool) (path addr : string) :
  negb console && (path =? "") && (addr =? "") = true <->
  ~ has_destination console path addr.
Proof.
  unfold has_destination. split.
  - intros H. apply andb_prop in H. destruct H as [H Ha].
    apply andb_prop in H. destruct H as [Hc Hp].
    apply String.eqb_eq in Ha. apply String.eqb_eq in Hp.
    apply negb_true_iff in Hc. subst.
    intros [K | [K | K]]; [discriminate | now apply K | now apply K].
  - intros H.
    destruct console; [exfalso; apply H; now left |].
    destruct (String.eqb_spec path "") as [Hp | Hp];
      [| exfalso; apply H; right; left; exact Hp].
    destruct (String.eqb_spec addr "") as [Ha | Ha];
      [| exfalso; apply H; right; right; exact Ha].
    reflexivity.
Qed.

Lemma destination_guard_passes (console : bool) (path addr : string) :
  has_destination console path addr ->
  negb console && (path =? "") && (addr =? "") = false.
Proof.
  intros H. apply not_true_is_false. intros K.
  apply no_destination_guard in K. now apply K.
Qed.

Lemma no_identity_guard (serviceName pod : string) :
  (serviceName =? "") && (pod =? "") = true <-> ~ has_identity serviceName pod.
Proof.
  unfold has_identity. split.
  - intros H. apply andb_prop in H. destruct H as [Hs Hp].
    apply String.eqb_eq in Hs. apply String.eqb_eq in Hp. subst.
    intros [K | K]; now apply K.
  - intros H.
    destruct (String.eqb_spec serviceName "") as [Hs | Hs];
      [| exfalso; apply H; left; exact Hs].
    destruct (String.eqb_spec pod "") as [Hp | Hp];
      [| exfalso; apply H; right; exact Hp].
    reflexivity.
Qed.

Lemma identity_guard_passes (serviceName pod : string) :
  has_identity serviceName pod -> (serviceName =? "") && (pod =? "") = false.
Proof.
  intros H. apply not_true_is_false. intros K.
  apply no_identity_guard in K. now apply K.
Qed.

(** Whatever [NewLogger] is given, an error comes with the zero Config and
    is one of the two messages of the source. *)
Lemma NewLogger_error_shape serviceName console pod path addr lvl en e :
  snd (NewLogger serviceName console pod path addr lvl en) = Some e ->
  fst (NewLogger serviceName console pod path addr lvl en) = zero_Config
  /\ (e = errNoDestination \/ e = errNoIdentity).
Proof.
  unfold NewLogger.
  destruct (negb console && (path =? "") && (addr =? "")).
  - simpl. intros H. injection H as <-. auto.
  - destruct ((serviceName =? "") && (pod =? "")); simpl; intros H.
    + injection H as <-. auto.
    + discriminate.
Qed.

End ConfigFacts.

(** C1, as the source has it.  The destination test of [NewLogger] reads
    Console, LogFilePath and LogAnalyserAddress: when Console is false and
    both strings are empty the result is the zero Config with the
    destination error, whatever LogAnalyserEnabled is; when Console is true
    or one of the two strings is not empty, the destination error is not
    returned. *)
Theorem NewLogger_destination_test :
  forall serviceName console pod logFilePath logAnalyserAddress logLevel
         logAnalyserEnabled,
    (console = false -> logFilePath = "" -> logAnalyserAddress = "" ->
     NewLogger serviceName console pod logFilePath logAnalyserAddress
               logLevel logAnalyserEnabled
     = (zero_Config, Some errNoDestination))
    /\
    (console = true \/ logFilePath <> "" \/ logAnalyserAddress <> "" ->
     snd (NewLogger serviceName console pod logFilePath logAnalyserAddress
                    logLevel logAnalyserEnabled)
     <> Some errNoDestination).
Proof.
  intros serviceName console pod path addr lvl en. split.
  - intros -> -> ->. reflexivity.
  - intros H. apply destination_guard_passes in H. unfold NewLogger. rewrite H.
    destruct ((serviceName =? "") && (pod =? "")); simpl; discriminate.
Qed.

Lemma NewLogger_destination_test_witness :
  NewLogger "svc" false "" "" "" "info" true
  = (zero_Config, Some errNoDestination)
  /\ snd (NewLogger "svc" false "" "" "collector:5000" "info" false)
     <> Some errNoDestination.
Proof.
  split.
  - apply (NewLogger_destination_test "svc" false "" "" "" "info" true);
      reflexivity.
  - apply (NewLogger_destination_test "svc" false "" "" "collector:5000"
                                      "info" false).
    right; right. discriminate.
Defined.

(** C1 as the specification words it fails in both directions.  With the
    collector enabled and no address the destination error is returned
    although a destination of the specification is set; with an address
    and the collector not enabled a Config is returned although none is. *)
Lemma NewLogger_enabled_flag_not_tested :
  (spec_has_destination false "" true
   /\ NewLogger "svc" false "" "" "" "info" true
      = (zero_Config, Some errNoDestination))
  /\
  (~ spec_has_destination false "" false
   /\ NewLogger "svc" false "" "" "collector:5000" "info" false
      = (mkConfig "svc" "" "info" "collector:5000" false false "", None)).
Proof.
  split; split.
  - unfold spec_has_destination. right; right. reflexivity.
  - reflexivity.
  - unfold spec_has_destination. intros [K | [K | K]];
      [discriminate | now apply K | discriminate].
  - reflexivity.
Qed.

(** C7.  With serviceName and pod both empty, [NewLogger] returns an
    error (one of its two) and the zero Config, whatever the console flag,
    the file path and the collector settings are. *)
Theorem NewLogger_requires_identity :
  forall console logFilePath logAnalyserAddress logLevel logAnalyserEnabled,
  exists e,
    NewLogger "" console "" logFilePath logAnalyserAddress logLevel
              logAnalyserEnabled
    = (zero_Config, Some e)
    /\ (e = errNoDestination \/ e = errNoIdentity).
Proof.
  intros console path addr lvl en. unfold NewLogger.
  destruct (negb console && (path =? "") && (addr =? "")).
  - exists errNoDestination. auto.
  - exists errNoIdentity. auto.
Qed.

(** C8, as the source has it.  [NewLogger] tests the destinations
    (Console, LogFilePath, LogAnalyserAddress) first: when that test fails
    the destination error is returned, whether or not an identity is given;
    when it passes and serviceName and pod are both empty the identity
    error is returned; and every error comes with the zero Config and a
    message that is not empty. *)
Theorem NewLogger_check_order :
  forall serviceName console pod logFilePath logAnalyserAddress logLevel
         logAnalyserEnabled,
    let r := NewLogger serviceName console pod logFilePath logAnalyserAddress
                       logLevel logAnalyserEnabled in
    (~ has_destination console logFilePath logAnalyserAddress ->
     r = (zero_Config, Some errNoDestination))
    /\ (has_destination console logFilePath logAnalyserAddress ->
        ~ has_identity serviceName pod ->
        r = (zero_Config, Some errNoIdentity))
    /\ (forall e, snd r = Some e -> fst r = zero_Config /\ err_Error e <> "").
Proof.
  intros serviceName console pod path addr lvl en r. subst r.
  split; [| split].
  - intros H. apply no_destination_guard in H. unfold NewLogger. now rewrite H.
  - intros Hd Hi. apply destination_guard_passes in Hd.
    apply no_identity_guard in Hi. unfold NewLogger. now rewrite Hd, Hi.
  - intros e He. destruct (NewLogger_error_shape _ _ _ _ _ _ _ _ He) as [Hz Hm].
    split; [exact Hz |]. destruct Hm as [-> | ->]; discriminate.
Qed.

Lemma NewLogger_check_order_witness :
  NewLogger "" false "" "" "" "info" false
  = (zero_Config, Some errNoDestination)
  /\ NewLogger "" true "" "" "" "info" false
     = (zero_Config, Some errNoIdentity)
  /\ (fst (NewLogger "" true "" "" "" "info" false) = zero_Config
      /\ err_Error errNoIdentity <> "").
Proof.
  split; [| split].
  - apply (NewLogger_check_order "" false "" "" "" "info" false).
    unfold has_destination. intros [K | [K | K]];
      [discriminate | now apply K | now apply K].
  - apply (NewLogger_check_order "" true "" "" "" "info" false).
    + unfold has_destination. left. reflexivity.
    + unfold has_identity. intros [K | K]; now apply K.
  - apply (NewLogger_check_order "" true "" "" "" "info" false).
    reflexivity.
Defined.

(** C8 as the specification words it fails.  With no destination of the
    specification and no identity, but a collector address, the error
    returned is the identity error, not the destination error. *)
Lemma NewLogger_both_missing_identity_error :
  ~ spec_has_destination false "" false
  /\ ~ has_identity "" ""
  /\ NewLogger "" false "" "" "collector:5000" "info" false
     = (zero_Config, Some errNoIdentity)
  /\ errNoIdentity <> errNoDestination.
Proof.
  repeat split.
  - unfold spec_has_destination. intros [K | [K | K]];
      [discriminate | now apply K | discriminate].
  - unfold has_identity. intros [K | K]; now apply K.
  - discriminate.
Qed.

(** C9, as the source has it.  When Console is true or LogFilePath or
    LogAnalyserAddress is not empty, and serviceName or pod is not empty,
    [NewLogger] returns no error and a Config holding the seven arguments
    unchanged; the level string is stored as given. *)
Theorem NewLogger_success :
  forall serviceName console pod logFilePath logAnalyserAddress logLevel
         logAnalyserEnabled,
    has_destination console logFilePath logAnalyserAddress ->
    has_identity serviceName pod ->
    NewLogger serviceName console pod logFilePath logAnalyserAddress
              logLevel logAnalyserEnabled
    = (mkConfig serviceName pod logLevel logAnalyserAddress
                logAnalyserEnabled console logFilePath, None).
Proof.
  intros serviceName console pod path addr lvl en Hd Hi.
  apply destination_guard_passes in Hd. apply identity_guard_passes in Hi.
  unfold NewLogger. now rewrite Hd, Hi.
Qed.

Lemma NewLogger_success_witness :
  NewLogger "svc" true "" "" "" "verbose" false
  = (mkConfig "svc" "" "verbose" "" false true "", None).
Proof.
  apply (NewLogger_success "svc" true "" "" "" "verbose" false).
  - unfold has_destination. left. reflexivity.
  - unfold has_identity. left. discriminate.
Defined.

(** C9 as the specification words it fails.  An input with an identity and
    the collector enabled satisfies both invariants of the specification,
    yet without an address, a console or a file it is refused. *)
Lemma NewLogger_enabled_without_address_refused :
  spec_has_destination false "" true
  /\ has_identity "svc" ""
  /\ snd (NewLogger "svc" false "" "" "" "info" true) = Some errNoDestination.
Proof.
  repeat split.
  - unfold spec_has_destination. right; right. reflexivity.
  - unfold has_identity. left. discriminate.
Qed.

(* ================================================================== *)
(** * Properties of the leveled logging functions *)
(* ================================================================== *)

Section FieldFacts.

(** Induction on a list two elements at a time, as the loop reads it. *)
Lemma pair_induction (A : Type) (P : list A -> Prop) :
  P [] -> (forall x, P [x]) -> (forall x y l, P l -> P (x :: y :: l)) ->
  forall l, P l.
Proof.
  intros H0 H1 H2 l.
  assert (H : P l /\ forall x, P (x :: l)).
  { induction l as [| a l [IH1 IH2]]; split; auto. }
  apply H.
Qed.

Lemma odd_mod2 (n : nat) : negb (n mod 2 =? 0)%nat = Nat.odd n.
Proof.
  rewrite <- Nat.bit0_mod, Nat.bit0_odd. destruct (Nat.odd n); reflexivity.
Qed.

Lemma WithLevel_enabled (st : State) (lvl : Level) :
  WithLevel (gLevel st) (log_Logger st) lvl
  = if enabled st lvl
    then Some (mkEvent (lg_w (log_Logger st)) lvl false
                       (lg_context (log_Logger st)))
    else None.
Proof.
  unfold WithLevel, enabled, newEvent. destruct lvl; reflexivity.
Qed.

Lemma loop_nil_event (fields : list Any) : logWithFields_loop fields None = None.
Proof.
  induction fields as [| x | x y l IH] using pair_induction.
  - reflexivity.
  - destruct x; reflexivity.
  - destruct x, y; simpl; auto.
Qed.

Lemma loop_some_event (fields : list Any) :
  forall d,
    logWithFields_loop fields (Some d)
    = Some (mkEvent (ev_w d) (ev_level d) (ev_stack d)
                    (ev_entries d ++ loop_entries fields)).
Proof.
  induction fields as [| x | x y l IH] using pair_induction; intros [w lv sk es].
  - simpl. now rewrite app_nil_r.
  - destruct x; simpl; now rewrite app_nil_r.
  - destruct x, y; simpl; try reflexivity.
    rewrite IH. simpl. now rewrite <- app_assoc.
Qed.

(** What a call of [logWithFields] does: one record, with the entries of
    [field_entries], handed to the package-level logger. *)
Lemma logWithFields_emit (lvl : Level) (msg : string) (fields : list Any)
    (st : State) :
  logWithFields lvl msg fields st
  = Ret tt (emit lvl (field_entries fields) msg st).
Proof.
  unfold logWithFields, log_WithLevel, bind, get, ret, emit, field_entries.
  rewrite odd_mod2, WithLevel_enabled.
  destruct (enabled st lvl).
  - destruct (Nat.odd (length fields)).
    + reflexivity.
    + rewrite loop_some_event. reflexivity.
  - destruct (Nat.odd (length fields)).
    + reflexivity.
    + rewrite loop_nil_event. reflexivity.
Qed.

Lemma loop_entries_first_bad (pre : list (string * string)) (k v : Any)
    (rest : list Any) :
  is_string k && is_string v = false ->
  loop_entries (flatten_pairs pre ++ k :: v :: rest)
  = str_entries pre ++ [diag_strings].
Proof.
  intros Hbad. induction pre as [| [key val] pre IH].
  - destruct k, v; simpl in *; try reflexivity; discriminate.
  - simpl. now rewrite IH.
Qed.

Lemma length_flatten_odd (pre : list (string * string)) (tail : list Any) :
  Nat.odd (length (flatten_pairs pre ++ tail)) = Nat.odd (length tail).
Proof.
  induction pre as [| [key val] pre IH]; [reflexivity |].
  simpl length. rewrite <- IH. reflexivity.
Qed.


Lemma leveled_api_logWithFields f lvl :
  In (f, lvl) leveled_api -> f = logWithFields lvl.
Proof.
  unfold leveled_api. simpl.
  intros [H | [H | [H | [H | [H | [H | [H | []]]]]]]];
    injection H as <- <-; reflexivity.
Qed.

Lemma emit_frame lvl entries msg st :
  initialized (emit lvl entries msg st) = initialized st
  /\ log_Logger (emit lvl entries msg st) = log_Logger st
  /\ TimeFieldFormat (emit lvl entries msg st) = TimeFieldFormat st
  /\ gLevel (emit lvl entries msg st) = gLevel st.
Proof.
  unfold emit. destruct (enabled st lvl); repeat split; reflexivity.
Qed.

(** When the level passes, [emit] is exactly one write, to the logger's
    writer; when it does not, nothing is written. *)
Lemma emit_written lvl entries msg st :
  written (emit lvl entries msg st)
  = written st
    ++ (if enabled st lvl
        then [(lg_w (log_Logger st),
               mkLogRecord lvl (lg_context (log_Logger st) ++ entries) msg)]
        else []).
Proof.
  unfold emit. destruct (enabled st lvl); simpl; [reflexivity |].
  now rewrite app_nil_r.
Qed.

End FieldFacts.

(** C2.  What the source does at [ErrorWithError(err)] with no extra
    field: the pair it appends, the key "error" with the wrapped error, is
    not a pair of strings, so [logWithFields] replaces it with the
    diagnostic.  The record has the message [err.Error()] and the entry
    fields_error, and neither the error nor its stack.  The revision with
    typed fields, on the same call, attaches the error with its stack. *)
Theorem ErrorWithError_error_pair_rejected :
  forall (os : OS) (err : error) (st : State),
    ErrorWithError os err [] st
    = Ret tt (emit ErrorLevel [diag_strings] (err_Error err) st)
    /\ TypedFields.ErrorWithError os err [] st
       = Ret tt (emit ErrorLevel [EErr true (errors_WithStack os err)]
                      (err_Error err) st).
Proof.
  intros os err st. split.
  - unfold ErrorWithError. rewrite logWithFields_emit. reflexivity.
  - unfold TypedFields.ErrorWithError, log_event, bind, get, ret, emit,
      enabled, newEvent.
    destruct (should (gLevel st) (log_Logger st) ErrorLevel); reflexivity.
Qed.

(** [ErrorWithError(errors.New("boom"))] in a process whose logger lets
    every level through: the one record written. *)
Example ErrorWithError_boom :
  ErrorWithError os_ok (errors_New "boom") [] st_fresh
  = Ret tt (mkState false (log_Logger st_fresh) "" TraceLevel
      [(Stderr,
        mkLogRecord ErrorLevel
          [ETimestamp;
           EInterface "fields_error"
                      (VString "key-value pairs must be strings")]
          "boom")]).
Proof. reflexivity. Qed.



(** [Info("msg", "key")] and [Info("msg", "key", 42)] in a process whose
    logger lets every level through: one record each, with the message and
    the diagnostic. *)
Example Info_odd_fields :
  written_of (Info "msg" [VString "key"] st_fresh)
  = [(Stderr, mkLogRecord InfoLevel [ETimestamp; diag_uneven] "msg")].
Proof. reflexivity. Qed.

Example Info_non_string_value :
  written_of (Info "msg" [VString "key"; VInt 42] st_fresh)
  = [(Stderr, mkLogRecord InfoLevel [ETimestamp; diag_strings] "msg")].
Proof. reflexivity. Qed.

(** A record below the logger's minimum is dropped, malformed or not. *)
Example Debug_below_minimum :
  written_of (Debug "x" [VString "key"] st_warn) = [].
Proof. reflexivity. Qed.

(** C4.  In [logWithFields], when the list has even length and its first
    pair that is not a pair of strings stands after the string pairs
    [pre], the record carries the pairs of [pre], in order, then the one
    diagnostic fields_error, and nothing of what follows that pair; when
    the list has odd length the record carries the diagnostic alone. *)
Theorem logWithFields_partial_attachment :
  forall (level : Level) (message : string) (st : State),
    (forall pre k v rest,
        Nat.even (length rest) = true ->
        is_string k && is_string v = false ->
        logWithFields level message (flatten_pairs pre ++ k :: v :: rest) st
        = Ret tt (emit level (str_entries pre ++ [diag_strings]) message st))
    /\
    (forall fields,
        Nat.odd (length fields) = true ->
        logWithFields level message fields st
        = Ret tt (emit level [diag_uneven] message st)).
Proof.
  intros level message st. split.
  - intros pre k v rest Heven Hkv.
    rewrite logWithFields_emit. unfold field_entries.
    rewrite length_flatten_odd.
    replace (Nat.odd (length (k :: v :: rest))) with (Nat.odd (length rest))
      by reflexivity.
    unfold Nat.odd. rewrite Heven. simpl negb. cbv iota.
    now rewrite loop_entries_first_bad.
  - intros fields Hodd. rewrite logWithFields_emit. unfold field_entries.
    now rewrite Hodd.
Qed.

Lemma logWithFields_partial_attachment_witness :
  logWithFields InfoLevel "msg"
    (flatten_pairs [("a", "1"); ("b", "2")]
     ++ VString "c" :: VInt 3 :: [VString "d"; VString "4"]) st_fresh
  = Ret tt (emit InfoLevel
                 (str_entries [("a", "1"); ("b", "2")] ++ [diag_strings])
                 "msg" st_fresh)
  /\ logWithFields InfoLevel "msg" [VString "a"; VString "1"; VString "b"]
                   st_fresh
     = Ret tt (emit InfoLevel [diag_uneven] "msg" st_fresh).
Proof.
  split.
  - apply (logWithFields_partial_attachment InfoLevel "msg" st_fresh);
      reflexivity.
  - apply (logWithFields_partial_attachment InfoLevel "msg" st_fresh).
    reflexivity.
Defined.

(** The same call, evaluated: a=1 and b=2 are kept, c=3 gives the
    diagnostic, d=4 is lost. *)
Example logWithFields_keeps_leading_pairs :
  written_of
    (logWithFields InfoLevel "msg"
       [VString "a"; VString "1"; VString "b"; VString "2";
        VString "c"; VInt 3; VString "d"; VString "4"] st_fresh)
  = [(Stderr,
      mkLogRecord InfoLevel
        [ETimestamp; EStr "a" "1"; EStr "b" "2"; diag_strings] "msg")].
Proof. reflexivity. Qed.

(* ================================================================== *)
(** * Properties of the level normalisation *)
(* ================================================================== *)

Section CaseFacts.

Ltac each_byte c :=
  destruct c as [[] [] [] [] [] [] [] []]; vm_compute; try discriminate;
  repeat split; reflexivity.

(** An ASCII byte starts none of the multi-byte runes the mappings know. *)
Lemma ascii_not_lead (c : ascii) :
  (nat_of_ascii c <? 128)%nat = true ->
  Ascii.eqb c (byte 196) = false
  /\ Ascii.eqb c (byte 197) = false
  /\ Ascii.eqb c (byte 226) = false.
Proof. each_byte c. Qed.

Lemma upper_lower_byte (c : ascii) :
  (nat_of_ascii c <? 128)%nat = true ->
  upper_byte (lower_byte c) = upper_byte c
  /\ lower_byte (upper_byte c) = lower_byte c
  /\ (nat_of_ascii (upper_byte c) <? 128)%nat = true
  /\ (nat_of_ascii (lower_byte c) <? 128)%nat = true.
Proof. each_byte c. Qed.

Lemma ToUpper_cons_ascii (c : ascii) (rest : string) :
  (nat_of_ascii c <? 128)%nat = true ->
  ToUpper (String c rest) = String (upper_byte c) (ToUpper rest).
Proof.
  intros Hc. destruct (ascii_not_lead c Hc) as (H196 & H197 & _).
  destruct rest as [| d r]; [reflexivity |].
  change (ToUpper (String c (String d r)))
    with (if Ascii.eqb c (byte 196) && Ascii.eqb d (byte 177)
          then String "I" (ToUpper r)
          else if Ascii.eqb c (byte 197) && Ascii.eqb d (byte 191)
               then String "S" (ToUpper r)
               else String (upper_byte c) (ToUpper (String d r))).
  now rewrite H196, H197.
Qed.

Lemma ToLower_cons_ascii (c : ascii) (rest : string) :
  (nat_of_ascii c <? 128)%nat = true ->
  ToLower (String c rest) = String (lower_byte c) (ToLower rest).
Proof.
  intros Hc. destruct (ascii_not_lead c Hc) as (H196 & _ & H226).
  destruct rest as [| d [| e r]]; [reflexivity | |].
  - change (ToLower (String c (String d EmptyString)))
      with (if Ascii.eqb c (byte 196) && Ascii.eqb d (byte 176)
            then String "i" (ToLower EmptyString)
            else String (lower_byte c) (ToLower (String d EmptyString))).
    now rewrite H196.
  - change (ToLower (String c (String d (String e r))))
      with (if Ascii.eqb c (byte 196) && Ascii.eqb d (byte 176)
            then String "i" (ToLower (String e r))
            else if Ascii.eqb c (byte 226) && Ascii.eqb d (byte 132)
                    && Ascii.eqb e (byte 170)
                 then String "k" (ToLower r)
                 else String (lower_byte c) (ToLower (String d (String e r)))).
    now rewrite H196, H226.
Qed.

(** On ASCII strings both mappings work byte by byte. *)
Lemma ToUpper_ascii (s : string) :
  is_ascii s = true -> ToUpper s = map_bytes upper_byte s.
Proof.
  induction s as [| c s IH]; [reflexivity |].
  simpl is_ascii. intros H. apply andb_prop in H. destruct H as [Hc Hs].
  rewrite (ToUpper_cons_ascii c s Hc), (IH Hs). reflexivity.
Qed.

Lemma ToLower_ascii (s : string) :
  is_ascii s = true -> ToLower s = map_bytes lower_byte s.
Proof.
  induction s as [| c s IH]; [reflexivity |].
  simpl is_ascii. intros H. apply andb_prop in H. destruct H as [Hc Hs].
  rewrite (ToLower_cons_ascii c s Hc), (IH Hs). reflexivity.
Qed.

Lemma map_bytes_ascii (s : string) :
  is_ascii s = true ->
  is_ascii (map_bytes upper_byte s) = true
  /\ is_ascii (map_bytes lower_byte s) = true
  /\ map_bytes upper_byte (map_bytes lower_byte s) = map_bytes upper_byte s
  /\ map_bytes lower_byte (map_bytes upper_byte s) = map_bytes lower_byte s.
Proof.
  induction s as [| c s IH]; [repeat split |].
  simpl is_ascii. intros H. apply andb_prop in H. destruct H as [Hc Hs].
  destruct (IH Hs) as (IH1 & IH2 & IH3 & IH4).
  destruct (upper_lower_byte c Hc) as (B1 & B2 & B3 & B4).
  simpl. rewrite IH1, IH2, IH3, IH4, B1, B2, B3, B4. repeat split.
Qed.

Lemma ToUpper_ToLower_ascii (s : string) :
  is_ascii s = true ->
  ToUpper (ToLower s) = ToUpper s /\ ToLower (ToUpper s) = ToLower s.
Proof.
  intros H. destruct (map_bytes_ascii s H) as (A1 & A2 & A3 & A4).
  rewrite (ToUpper_ascii s H), (ToLower_ascii s H).
  rewrite (ToUpper_ascii _ A2), (ToLower_ascii _ A1). auto.
Qed.

(** For an ASCII string, the lower-case form is a level name exactly when
    the upper-case form is that name in capitals. *)
Lemma level_name_forms (s name : string) (lvl : Level) :
  is_ascii s = true ->
  In (name, lvl) level_names ->
  (ToLower s = name <-> ToUpper s = ToUpper name).
Proof.
  intros Hs Hin. destruct (ToUpper_ToLower_ascii s Hs) as [UL LU].
  assert (Hname : ToLower (ToUpper name) = name).
  { unfold level_names in Hin. simpl in Hin.
    destruct Hin as [H | [H | [H | [H | [H | [H | [H | []]]]]]]];
      injection H as <- <-; reflexivity. }
  split; intros H.
  - rewrite <- UL, H. reflexivity.
  - rewrite <- LU, H. exact Hname.
Qed.

Lemma parseLogLevel_upper_name (s name : string) (lvl : Level) :
  In (name, lvl) level_names ->
  ToUpper s = ToUpper name ->
  parseLogLevel s = lvl.
Proof.
  intros Hin H. unfold parseLogLevel. rewrite H.
  unfold level_names in Hin. simpl in Hin.
  destruct Hin as [K | [K | [K | [K | [K | [K | [K | []]]]]]]];
    injection K as <- <-; reflexivity.
Qed.

Lemma parseLogLevel_upper_other (s : string) :
  (forall name lvl, In (name, lvl) level_names -> ToUpper s <> ToUpper name) ->
  parseLogLevel s = InfoLevel.
Proof.
  intros H. unfold parseLogLevel.
  destruct (String.eqb_spec (ToUpper s) "DEBUG") as [E | _];
    [exfalso; apply (H "debug" DebugLevel); [simpl; tauto | exact E] |].
  destruct (String.eqb_spec (ToUpper s) "INFO") as [E | _]; [reflexivity |].
  destruct (String.eqb_spec (ToUpper s) "WARN") as [E | _];
    [exfalso; apply (H "warn" WarnLevel); [simpl; tauto | exact E] |].
  destruct (String.eqb_spec (ToUpper s) "ERROR") as [E | _];
    [exfalso; apply (H "error" ErrorLevel); [simpl; tauto | exact E] |].
  destruct (String.eqb_spec (ToUpper s) "FATAL") as [E | _];
    [exfalso; apply (H "fatal" FatalLevel); [simpl; tauto | exact E] |].
  destruct (String.eqb_spec (ToUpper s) "PANIC") as [E | _];
    [exfalso; apply (H "panic" PanicLevel); [simpl; tauto | exact E] |].
  destruct (String.eqb_spec (ToUpper s) "TRACE") as [E | _];
    [exfalso; apply (H "trace" TraceLevel); [simpl; tauto | exact E] |].
  reflexivity.
Qed.

(** The inline switch of the revision with typed fields decides on the
    lower-case form, for every string. *)
Lemma logLevel_switch_lower_form (s : string) :
  (forall name lvl,
      In (name, lvl) level_names -> ToLower s = name ->
      TypedFields.logLevel_switch s = lvl)
  /\ ((forall name lvl, In (name, lvl) level_names -> ToLower s <> name) ->
      TypedFields.logLevel_switch s = InfoLevel).
Proof.
  unfold TypedFields.logLevel_switch. split.
  - intros name lvl Hin H. rewrite H.
    unfold level_names in Hin. simpl in Hin.
    destruct Hin as [K | [K | [K | [K | [K | [K | [K | []]]]]]]];
      injection K as <- <-; reflexivity.
  - intros H.
    destruct (String.eqb_spec (ToLower s) "debug") as [E | _];
      [exfalso; apply (H "debug" DebugLevel); [simpl; tauto | exact E] |].
    destruct (String.eqb_spec (ToLower s) "info") as [E | _]; [reflexivity |].
    destruct (String.eqb_spec (ToLower s) "warn") as [E | _];
      [exfalso; apply (H "warn" WarnLevel); [simpl; tauto | exact E] |].
    destruct (String.eqb_spec (ToLower s) "error") as [E | _];
      [exfalso; apply (H "error" ErrorLevel); [simpl; tauto | exact E] |].
    destruct (String.eqb_spec (ToLower s) "fatal") as [E | _];
      [exfalso; apply (H "fatal" FatalLevel); [simpl; tauto | exact E] |].
    destruct (String.eqb_spec (ToLower s) "panic") as [E | _];
      [exfalso; apply (H "panic" PanicLevel); [simpl; tauto | exact E] |].
    destruct (String.eqb_spec (ToLower s) "trace") as [E | _];
      [exfalso; apply (H "trace" TraceLevel); [simpl; tauto | exact E] |].
    reflexivity.
Qed.

End CaseFacts.

(** C5, as the source has it.  [parseLogLevel] decides on the upper-case
    form of the string: when [strings.ToUpper] of it is one of the seven
    names in capitals the level of that name is returned, and for every
    other string, info.  For a string of ASCII bytes this is the claim as
    worded: the level of the name its lower-case form is, and info when
    its lower-case form is none of the seven. *)
Theorem parseLogLevel_case_insensitive :
  forall s : string,
    (forall name lvl,
        In (name, lvl) level_names -> ToUpper s = ToUpper name ->
        parseLogLevel s = lvl)
    /\ ((forall name lvl,
            In (name, lvl) level_names -> ToUpper s <> ToUpper name) ->
        parseLogLevel s = InfoLevel)
    /\ (is_ascii s = true ->
        (forall name lvl,
            In (name, lvl) level_names -> ToLower s = name ->
            parseLogLevel s = lvl)
        /\ ((forall name lvl, In (name, lvl) level_names -> ToLower s <> name) ->
            parseLogLevel s = InfoLevel)).
Proof.
  intros s. split; [| split].
  - intros name lvl. apply parseLogLevel_upper_name.
  - apply parseLogLevel_upper_other.
  - intros Hs. split.
    + intros name lvl Hin H.
      apply (parseLogLevel_upper_name s name lvl Hin).
      now apply (level_name_forms s name lvl Hs Hin).
    + intros H. apply parseLogLevel_upper_other.
      intros name lvl Hin K. apply (H name lvl Hin).
      now apply (level_name_forms s name lvl Hs Hin).
Qed.

Lemma parseLogLevel_case_insensitive_witness :
  parseLogLevel "WaRn" = WarnLevel
  /\ parseLogLevel "verbose" = InfoLevel
  /\ parseLogLevel "Fatal" = FatalLevel
  /\ parseLogLevel "" = InfoLevel.
Proof.
  assert (Hnone : forall s : string,
             existsb (fun p => String.eqb s (fst p)) level_names = false ->
             forall name (lvl : Level), In (name, lvl) level_names -> s <> name).
  { intros s Hs name lvl Hin ->.
    assert (K : existsb (fun p => String.eqb name (fst p)) level_names = true).
    { apply existsb_exists. exists (name, lvl). split; [exact Hin |].
      apply String.eqb_refl. }
    congruence. }
  destruct (parseLogLevel_case_insensitive "WaRn") as (Upper & _ & _).
  destruct (parseLogLevel_case_insensitive "verbose") as (_ & Other & _).
  destruct (parseLogLevel_case_insensitive "Fatal") as (_ & _ & AsciiF).
  destruct (parseLogLevel_case_insensitive "") as (_ & _ & AsciiE).
  split; [| split; [| split]].
  - apply (Upper "warn" WarnLevel).
    + simpl. right; right; right; left. reflexivity.
    + reflexivity.
  - apply Other. intros name lvl Hin.
    unfold level_names in Hin. simpl in Hin.
    destruct Hin as [E | [E | [E | [E | [E | [E | [E | []]]]]]]];
      injection E as <- <-; discriminate.
  - apply (proj1 (AsciiF eq_refl) "fatal" FatalLevel).
    + simpl. right; right; right; right; right; left. reflexivity.
    + reflexivity.
  - apply (proj2 (AsciiE eq_refl)). apply Hnone. reflexivity.
Defined.

(** C5 as worded fails on [parseLogLevel] outside ASCII.  The lower-case
    form of "pan" U+0131 "c" is no level name, yet its upper-case form is
    PANIC and the level returned is panic, not info; the lower-case form of
    "PAN" U+0130 "C" is panic, yet its upper-case form is not PANIC and the
    level returned is info. *)
Lemma parseLogLevel_dotless_i :
  ((forall name lvl,
       In (name, lvl) level_names ->
       ToLower ("pan" ++ dotless_i ++ "c")%string <> name)
   /\ parseLogLevel ("pan" ++ dotless_i ++ "c")%string = PanicLevel)
  /\
  (ToLower ("PAN" ++ dotted_I ++ "C")%string = "panic"
   /\ parseLogLevel ("PAN" ++ dotted_I ++ "C")%string = InfoLevel).
Proof.
  split; split; try reflexivity.
  intros name lvl Hin. unfold level_names in Hin. simpl in Hin.
  destruct Hin as [K | [K | [K | [K | [K | [K | [K | []]]]]]]];
    injection K as <- <-; vm_compute; discriminate.
Qed.

(* ================================================================== *)
(** * Properties of the initialisation *)
(* ================================================================== *)

Section InitFacts.

Variable normalize : string -> Level.
Variable os : OS.

(** The guard: in an initialised process a call hands one warning to the
    logger in place and does nothing else. *)
Lemma InitLogger_with_again (config : Config) (st : State) :
  initialized st = true ->
  InitLogger_with normalize os config st
  = Ret tt (emit WarnLevel [] already_initialized st).
Proof.
  intros Hinit.
  unfold InitLogger_with, bind, get. rewrite Hinit.
  unfold log_event, bind, get, ret, emit, enabled, newEvent.
  destruct (should (gLevel st) (log_Logger st) WarnLevel); simpl.
  - unfold modify. now rewrite app_nil_r.
  - reflexivity.
Qed.

(** A call that returns leaves the process initialised. *)
Lemma InitLogger_with_sets_flag (config : Config) (st st' : State) :
  InitLogger_with normalize os config st = Ret tt st' ->
  initialized st' = true.
Proof.
  destruct (initialized st) eqn:Hinit.
  - rewrite (InitLogger_with_again config st Hinit). intros H.
    injection H as <-. now rewrite (proj1 (emit_frame _ _ _ _)).
  - unfold InitLogger_with, bind, get. rewrite Hinit.
    unfold modify, ret, log_Fatal_Err_Msg, log_event, bind, get, ret, os_Exit,
      NewLogstashWriter.
    destruct (negb (LogFilePath config =? ""));
      [destruct (os_OpenFile os (LogFilePath config)) |];
      (destruct (LogAnalyserEnabled config);
       [destruct (net_Dial os "tcp" (LogAnalyserAddress config)) |]);
      intros H; try (injection H as <-; reflexivity).
    all: try discriminate H.
    all: revert H;
      match goal with
      | |- context [Event_Msg ?e ?m ?s] => destruct (Event_Msg e m s)
      end; discriminate.
Qed.

(** A first call whose file opens and whose collector answers: the
    logger it installs. *)
Lemma InitLogger_with_fresh (config : Config) (st : State) (file : File)
    (c : Conn) :
  initialized st = false ->
  (LogFilePath config <> "" ->
   os_OpenFile os (LogFilePath config) = inl file) ->
  (LogAnalyserEnabled config = true ->
   net_Dial os "tcp" (LogAnalyserAddress config) = inl c) ->
  exists st',
    InitLogger_with normalize os config st = Ret tt st'
    /\ (let writers :=
          (if Console config then [Stdout] else [])
          ++ (if LogFilePath config =? "" then [] else [OsFile file])
          ++ (if LogAnalyserEnabled config
              then [Logstash (mkLogstashWriter c)] else []) in
        (writers <> [] -> lg_w (log_Logger st') = MultiWriter writers)
        /\ (writers = [] -> lg_w (log_Logger st') = Stdout))
    /\ lg_level (log_Logger st') = normalize (LogLevel config)
    /\ lg_context (log_Logger st')
       = [ETimestamp; EStr "service" (ServiceName config);
          EStr "pod" (Pod config); EInt "pid" (os_Getpid os); ECaller 3]
    /\ initialized st' = true
    /\ TimeFieldFormat st' = RFC3339
    /\ written st' = written st.
Proof.
  intros Hinit Hopen Hdial.
  unfold InitLogger_with, bind, get. rewrite Hinit.
  unfold modify, ret, NewLogstashWriter.
  destruct (String.eqb_spec (LogFilePath config) "") as [Hp | Hp];
    [| rewrite (Hopen Hp)];
    (destruct (LogAnalyserEnabled config);
     [rewrite (Hdial eq_refl) |]);
    destruct (Console config); simpl;
    eexists; (split; [reflexivity |]); simpl;
    repeat split; try reflexivity; try discriminate;
    intros K; exfalso; now apply K.
Qed.

End InitFacts.

(** C6.  After a call [InitLogger(c1)] that returned, a call
    [InitLogger(c2)] returns too, whatever [c2] and the operating system
    are: it hands one warning to the logger the first call left (which
    writes it unless warnings are below its minimum) and changes nothing
    else.  The package-level logger, hence its writers, its minimum level
    and its context entries, the initialised flag and zerolog's globals are
    as the first call left them.  This holds for both revisions of
    logging.go. *)
Theorem InitLogger_first_wins :
  forall (os1 os2 : OS) (c1 c2 : Config) (st0 st1 : State),
    (InitLogger os1 c1 st0 = Ret tt st1 ->
     InitLogger os2 c2 st1 = Ret tt (emit WarnLevel [] already_initialized st1))
    /\ (TypedFields.InitLogger os1 c1 st0 = Ret tt st1 ->
        TypedFields.InitLogger os2 c2 st1
        = Ret tt (emit WarnLevel [] already_initialized st1))
    /\ (let st2 := emit WarnLevel [] already_initialized st1 in
        log_Logger st2 = log_Logger st1
        /\ initialized st2 = initialized st1
        /\ TimeFieldFormat st2 = TimeFieldFormat st1
        /\ gLevel st2 = gLevel st1).
Proof.
  intros os1 os2 c1 c2 st0 st1. split; [| split].
  - intros H. apply InitLogger_with_again.
    exact (InitLogger_with_sets_flag _ _ _ _ _ H).
  - intros H. apply InitLogger_with_again.
    exact (InitLogger_with_sets_flag _ _ _ _ _ H).
  - destruct (emit_frame WarnLevel [] already_initialized st1)
      as (H1 & H2 & H3 & H4).
    cbv zeta. auto.
Qed.

(** The state a first call with [cfg_console] leaves. *)
Lemma InitLogger_cfg_console :
  InitLogger os_ok cfg_console st_fresh
  = Ret tt (mkState true
              (mkLogger (MultiWriter [Stdout]) DebugLevel
                 [ETimestamp; EStr "service" "svc"; EStr "pod" "";
                  EInt "pid" 4242%Z; ECaller 3])
              RFC3339 TraceLevel []).
Proof. reflexivity. Qed.

Lemma InitLogger_first_wins_witness :
  let st1 := mkState true
              (mkLogger (MultiWriter [Stdout]) DebugLevel
                 [ETimestamp; EStr "service" "svc"; EStr "pod" "";
                  EInt "pid" 4242%Z; ECaller 3])
              RFC3339 TraceLevel [] in
  InitLogger os_ok cfg_all st1
  = Ret tt (emit WarnLevel [] already_initialized st1)
  /\ TypedFields.InitLogger os_ok cfg_all st1
     = Ret tt (emit WarnLevel [] already_initialized st1).
Proof.
  intros st1. split.
  - apply (InitLogger_first_wins os_ok os_ok cfg_console cfg_all st_fresh st1).
    reflexivity.
  - apply (InitLogger_first_wins os_ok os_ok cfg_console cfg_all st_fresh st1).
    reflexivity.
Defined.

(** The second call, evaluated: the logger is the one of [cfg_console],
    and the one write is the warning, on its writer. *)
Example InitLogger_twice :
  (InitLogger os_ok cfg_console ;;; InitLogger os_ok cfg_all) st_fresh
  = Ret tt (mkState true
              (mkLogger (MultiWriter [Stdout]) DebugLevel
                 [ETimestamp; EStr "service" "svc"; EStr "pod" "";
                  EInt "pid" 4242%Z; ECaller 3])
              RFC3339 TraceLevel
              [(MultiWriter [Stdout],
                mkLogRecord WarnLevel
                  [ETimestamp; EStr "service" "svc"; EStr "pod" "";
                   EInt "pid" 4242%Z; ECaller 3]
                  already_initialized)]).
Proof. reflexivity. Qed.

(** C10.  A first call of [InitLogger] whose file opens and whose
    collector answers returns, and the writer of the logger it installs is
    the multi-writer over the console (when Console), then the file (when
    LogFilePath is not empty), then the collector (when
    LogAnalyserEnabled), in that order; when none of the three is asked
    for, the writer is standard output alone.  This holds for both
    revisions of logging.go. *)
Theorem InitLogger_sink_order :
  forall (os : OS) (config : Config) (st : State) (file : File) (c : Conn),
    initialized st = false ->
    (LogFilePath config <> "" ->
     os_OpenFile os (LogFilePath config) = inl file) ->
    (LogAnalyserEnabled config = true ->
     net_Dial os "tcp" (LogAnalyserAddress config) = inl c) ->
    let writers :=
      (if Console config then [Stdout] else [])
      ++ (if LogFilePath config =? "" then [] else [OsFile file])
      ++ (if LogAnalyserEnabled config
          then [Logstash (mkLogstashWriter c)] else []) in
    (exists st',
        InitLogger os config st = Ret tt st'
        /\ (writers <> [] -> lg_w (log_Logger st') = MultiWriter writers)
        /\ (writers = [] -> lg_w (log_Logger st') = Stdout))
    /\
    (exists st',
        TypedFields.InitLogger os config st = Ret tt st'
        /\ (writers <> [] -> lg_w (log_Logger st') = MultiWriter writers)
        /\ (writers = [] -> lg_w (log_Logger st') = Stdout)).
Proof.
  intros os config st file c Hinit Hopen Hdial writers. split.
  - destruct (InitLogger_with_fresh parseLogLevel os config st file c
                Hinit Hopen Hdial) as (st' & Hrun & [Hmulti Hone] & _).
    exists st'. auto.
  - destruct (InitLogger_with_fresh TypedFields.logLevel_switch os config st
                file c Hinit Hopen Hdial) as (st' & Hrun & [Hmulti Hone] & _).
    exists st'. auto.
Qed.

Lemma InitLogger_sink_order_witness :
  (exists st',
      InitLogger os_ok cfg_all st_fresh = Ret tt st'
      /\ lg_w (log_Logger st')
         = MultiWriter [Stdout; OsFile 3%Z; Logstash (mkLogstashWriter 4%Z)])
  /\
  (exists st',
      InitLogger os_ok (mkConfig "svc" "" "info" "collector:5000" false false "")
                 st_fresh = Ret tt st'
      /\ lg_w (log_Logger st') = Stdout).
Proof.
  split.
  - destruct (InitLogger_sink_order os_ok cfg_all st_fresh 3%Z 4%Z)
      as [(st' & Hrun & Hmulti & _) _];
      [reflexivity | reflexivity | reflexivity |].
    exists st'. split; [exact Hrun |]. apply Hmulti. discriminate.
  - destruct (InitLogger_sink_order os_ok
                (mkConfig "svc" "" "info" "collector:5000" false false "")
                st_fresh 3%Z 4%Z)
      as [(st' & Hrun & _ & Hone) _].
    + reflexivity.
    + intros K. now exfalso.
    + intros K. discriminate K.
    + exists st'. split; [exact Hrun |]. apply Hone. reflexivity.
Defined.

(** The fall-back is reached by a Config [NewLogger] accepts: an address
    with the collector not enabled passes its destination test and leaves
    [InitLogger] with no writer to collect. *)
Example InitLogger_fallback_reachable :
  NewLogger "svc" false "" "" "collector:5000" "info" false
  = (mkConfig "svc" "" "info" "collector:5000" false false "", None)
  /\ InitLogger os_ok (mkConfig "svc" "" "info" "collector:5000" false false "")
                st_fresh
     = Ret tt (mkState true
                 (mkLogger Stdout InfoLevel
                    [ETimestamp; EStr "service" "svc"; EStr "pod" "";
                     EInt "pid" 4242%Z; ECaller 3])
                 RFC3339 TraceLevel []).
Proof. split; reflexivity. Qed.

(** When the file cannot be opened the process exits with status 1 after
    a fatal record on the logger in place; no logger is installed. *)
Example InitLogger_open_fails :
  InitLogger (mkOS (fun _ => inr (errors_New "permission denied"))
                   (fun _ _ => inl 4%Z) 4242%Z [])
             cfg_all st_fresh
  = Exit 1 (mkState false (log_Logger st_fresh) RFC3339 TraceLevel
              [(Stderr,
                mkLogRecord FatalLevel
                  [ETimestamp; EErr false (errors_New "permission denied")]
                  "Failed to open log file")]).
Proof. reflexivity. Qed.

(* ================================================================== *)
(** * Further properties of the configuration builders *)
(* ================================================================== *)

(** X1.  [NewLogger] returns no error exactly when Console is true or
    LogFilePath or LogAnalyserAddress is not empty, and serviceName or pod
    is not empty. *)
Theorem NewLogger_accepts_iff :
  forall serviceName console pod logFilePath logAnalyserAddress logLevel
         logAnalyserEnabled,
    snd (NewLogger serviceName console pod logFilePath logAnalyserAddress
                   logLevel logAnalyserEnabled) = None
    <-> (has_destination console logFilePath logAnalyserAddress
         /\ has_identity serviceName pod).
Proof.
  intros serviceName console pod path addr lvl en. unfold NewLogger.
  destruct (negb console && (path =? "") && (addr =? "")) eqn:Hd.
  - apply no_destination_guard in Hd. simpl. split.
    + discriminate.
    + intros [K _]. now exfalso.
  - destruct ((serviceName =? "") && (pod =? "")) eqn:Hi.
    + apply no_identity_guard in Hi. simpl. split.
      * discriminate.
      * intros [_ K]. now exfalso.
    + simpl. split; [intros _ | reflexivity]. split.
      * destruct console; [left; reflexivity |].
        destruct (String.eqb_spec path "") as [Hp | Hp];
          [| right; left; exact Hp].
        destruct (String.eqb_spec addr "") as [Ha | Ha];
          [discriminate | right; right; exact Ha].
      * destruct (String.eqb_spec serviceName "") as [Hs | Hs];
          [| left; exact Hs].
        destruct (String.eqb_spec pod "") as [Hp | Hp];
          [discriminate | right; exact Hp].
Qed.

Lemma NewLogger_accepts_iff_witness :
  (has_destination false "/tmp/a.log" "" /\ has_identity "" "pod-1")
  /\ snd (NewLogger "" false "pod-1" "/tmp/a.log" "" "info" false) = None.
Proof.
  assert (H : has_destination false "/tmp/a.log" "" /\ has_identity "" "pod-1").
  { apply (NewLogger_accepts_iff "" false "pod-1" "/tmp/a.log" "" "info" false).
    reflexivity. }
  split; [exact H |].
  apply (NewLogger_accepts_iff "" false "pod-1" "/tmp/a.log" "" "info" false).
  exact H.
Defined.

(** X2.  The Config [NewLogger] returns is the zero Config exactly when it
    returns an error: a caller that drops the error can still tell a
    refused input by the empty Config, and an accepted input never gives
    the zero Config. *)
Theorem NewLogger_zero_iff_error :
  forall serviceName console pod logFilePath logAnalyserAddress logLevel
         logAnalyserEnabled,
    fst (NewLogger serviceName console pod logFilePath logAnalyserAddress
                   logLevel logAnalyserEnabled) = zero_Config
    <-> snd (NewLogger serviceName console pod logFilePath logAnalyserAddress
                       logLevel logAnalyserEnabled) <> None.
Proof.
  intros serviceName console pod path addr lvl en. unfold NewLogger.
  destruct (negb console && (path =? "") && (addr =? "")).
  - simpl. split; [discriminate | reflexivity].
  - destruct ((serviceName =? "") && (pod =? "")) eqn:Hi.
    + simpl. split; [discriminate | reflexivity].
    + simpl. split.
      * intros H. injection H as Hs Hp _ _ _ _ _. subst. discriminate Hi.
      * intros H. now exfalso.
Qed.

Lemma NewLogger_zero_iff_error_witness :
  fst (NewLogger "" true "" "" "" "info" false) = zero_Config
  /\ snd (NewLogger "" true "" "" "" "info" false) <> None.
Proof.
  split.
  - apply (NewLogger_zero_iff_error "" true "" "" "" "info" false).
    discriminate.
  - apply (NewLogger_zero_iff_error "" true "" "" "" "info" false).
    reflexivity.
Defined.

(** X3.  [DefaultConfig], the first revision of the builder, counts a
    collector by the writer being there: with no console, no file and a
    nil writer it returns the destination error, whatever the identity;
    with one of the three and no identity, the identity error; otherwise
    the six arguments unchanged and no error. *)
Theorem DefaultConfig_cases :
  forall serviceName console pod logFilePath logAnalyser logLevel,
    let r := FirstRevision.DefaultConfig serviceName console pod logFilePath
                                         logAnalyser logLevel in
    (console = false -> logFilePath = "" -> logAnalyser = None ->
     r = (FirstRevision.zero_Config, Some FirstRevision.errNoDestination))
    /\ (console = true \/ logFilePath <> "" \/ logAnalyser <> None ->
        serviceName = "" -> pod = "" ->
        r = (FirstRevision.zero_Config, Some errNoIdentity))
    /\ (console = true \/ logFilePath <> "" \/ logAnalyser <> None ->
        has_identity serviceName pod ->
        r = (FirstRevision.mkConfig serviceName pod logLevel logAnalyser
                                    console logFilePath, None)).
Proof.
  intros serviceName console pod path analyser lvl r. subst r.
  assert (Hdest : console = true \/ path <> "" \/ analyser <> None ->
                  negb console && (path =? "")
                  && match analyser with None => true | Some _ => false end
                  = false).
  { intros [-> | [Hp | Ha]].
    - reflexivity.
    - apply String.eqb_neq in Hp. rewrite Hp. now rewrite andb_false_r.
    - destruct analyser; [now rewrite andb_false_r | now exfalso]. }
  unfold FirstRevision.DefaultConfig. split; [| split].
  - intros -> -> ->. reflexivity.
  - intros Hd -> ->. now rewrite (Hdest Hd).
  - intros Hd Hi. rewrite (Hdest Hd), (identity_guard_passes _ _ Hi).
    reflexivity.
Qed.

Lemma DefaultConfig_cases_witness :
  FirstRevision.DefaultConfig "svc" false "" "" None "info"
  = (FirstRevision.zero_Config, Some FirstRevision.errNoDestination)
  /\ FirstRevision.DefaultConfig "" false "" "" (Some Stderr) "info"
     = (FirstRevision.zero_Config, Some errNoIdentity)
  /\ FirstRevision.DefaultConfig "svc" false "" "" (Some Stderr) "info"
     = (FirstRevision.mkConfig "svc" "" "info" (Some Stderr) false "", None).
Proof.
  split; [| split].
  - apply (DefaultConfig_cases "svc" false "" "" None "info"); reflexivity.
  - apply (DefaultConfig_cases "" false "" "" (Some Stderr) "info");
      [right; right; discriminate | reflexivity | reflexivity].
  - apply (DefaultConfig_cases "svc" false "" "" (Some Stderr) "info").
    + right; right. discriminate.
    + left. discriminate.
Defined.

(* ================================================================== *)
(** * Further properties of the level normalisation *)
(* ================================================================== *)

Section NormalisationFacts.

Lemma eqb_iff_eq (a b c d : string) :
  (a = b <-> c = d) -> (a =? b) = (c =? d).
Proof.
  intros H.
  destruct (String.eqb_spec a b) as [E | E];
    destruct (String.eqb_spec c d) as [F | F]; try reflexivity.
  - exfalso. apply F. now apply H.
  - exfalso. apply E. now apply H.
Qed.

(** On an ASCII string each test of [parseLogLevel] has the outcome of the
    test of the inline switch for the same name. *)
Lemma upper_test_lower_test (s name : string) (lvl : Level) :
  is_ascii s = true ->
  In (name, lvl) level_names ->
  (ToUpper s =? ToUpper name) = (ToLower s =? name).
Proof.
  intros Hs Hin. apply eqb_iff_eq.
  split; intros H; now apply (level_name_forms s name lvl Hs Hin).
Qed.

End NormalisationFacts.

(** X4.  Whatever the string, both normalisations return one of the seven
    levels trace to panic, never NoLevel and never Disabled: no LogLevel
    value can switch the logger off or filter out panic records. *)
Theorem normalised_level_selectable :
  forall s : string,
    selectable (parseLogLevel s) = true
    /\ selectable (TypedFields.logLevel_switch s) = true
    /\ (level_rank (parseLogLevel s) <= level_rank PanicLevel)%Z
    /\ (level_rank (TypedFields.logLevel_switch s) <= level_rank PanicLevel)%Z.
Proof.
  intros s. unfold parseLogLevel, TypedFields.logLevel_switch.
  repeat split;
    repeat match goal with
           | |- context [if ?b then _ else _] => destruct b
           end;
    simpl; try reflexivity; lia.
Qed.

(** X5.  On a level string of ASCII bytes the two revisions agree:
    [parseLogLevel], which compares the upper-case form, returns the level
    the inline switch on the lower-case form returns. *)
Theorem normalisations_agree_on_ascii :
  forall s : string,
    is_ascii s = true ->
    parseLogLevel s = TypedFields.logLevel_switch s.
Proof.
  intros s Hs. unfold parseLogLevel, TypedFields.logLevel_switch.
  assert (Hdebug : (ToUpper s =? "DEBUG") = (ToLower s =? "debug"))
    by (apply (upper_test_lower_test s "debug" DebugLevel Hs); simpl; tauto).
  assert (Hinfo : (ToUpper s =? "INFO") = (ToLower s =? "info"))
    by (apply (upper_test_lower_test s "info" InfoLevel Hs); simpl; tauto).
  assert (Hwarn : (ToUpper s =? "WARN") = (ToLower s =? "warn"))
    by (apply (upper_test_lower_test s "warn" WarnLevel Hs); simpl; tauto).
  assert (Herror : (ToUpper s =? "ERROR") = (ToLower s =? "error"))
    by (apply (upper_test_lower_test s "error" ErrorLevel Hs); simpl; tauto).
  assert (Hfatal : (ToUpper s =? "FATAL") = (ToLower s =? "fatal"))
    by (apply (upper_test_lower_test s "fatal" FatalLevel Hs); simpl; tauto).
  assert (Hpanic : (ToUpper s =? "PANIC") = (ToLower s =? "panic"))
    by (apply (upper_test_lower_test s "panic" PanicLevel Hs); simpl; tauto).
  assert (Htrace : (ToUpper s =? "TRACE") = (ToLower s =? "trace"))
    by (apply (upper_test_lower_test s "trace" TraceLevel Hs); simpl; tauto).
  cbv zeta.
  rewrite Hdebug, Hinfo, Hwarn, Herror, Hfatal, Hpanic, Htrace.
  reflexivity.
Qed.

Lemma normalisations_agree_on_ascii_witness :
  parseLogLevel "Error" = TypedFields.logLevel_switch "Error".
Proof.
  apply (normalisations_agree_on_ascii "Error"). reflexivity.
Defined.

(* ================================================================== *)
(** * Further properties of the logging functions *)
(* ================================================================== *)

Section CallFacts.

Lemma loop_entries_pairs (kvs : list (string * string)) :
  loop_entries (flatten_pairs kvs) = str_entries kvs.
Proof.
  induction kvs as [| [k v] kvs IH]; [reflexivity |].
  simpl. now rewrite IH.
Qed.

Lemma length_flatten_even (kvs : list (string * string)) :
  Nat.odd (length (flatten_pairs kvs)) = false.
Proof.
  induction kvs as [| [k v] kvs IH]; [reflexivity |].
  simpl length. rewrite <- IH. reflexivity.
Qed.

Lemma field_entries_pairs (kvs : list (string * string)) :
  field_entries (flatten_pairs kvs) = str_entries kvs.
Proof.
  unfold field_entries. now rewrite length_flatten_even, loop_entries_pairs.
Qed.

Lemma odd_length_app2 (A : Type) (l : list A) (a b : A) :
  Nat.odd (length (l ++ [a; b])) = Nat.odd (length l).
Proof.
  rewrite length_app, Nat.add_comm. reflexivity.
Qed.

Lemma with_error_api_logWithFields f lvl :
  In (f, lvl) with_error_api ->
  forall os err fields,
    f os err fields
    = logWithFields lvl (err_Error err)
        (fields ++ [VString "error"; VError (errors_WithStack os err)]).
Proof.
  unfold with_error_api. simpl.
  intros [H | [H | [H | [H | [H | []]]]]];
    injection H as <- <-; reflexivity.
Qed.

(** A record handed to the logger changes the state by at most one write. *)
Lemma emit_at_most_one lvl entries msg st :
  exists more,
    written (emit lvl entries msg st) = written st ++ more
    /\ (length more <= 1)%nat.
Proof.
  rewrite emit_written. destruct (enabled st lvl).
  - eexists. split; [reflexivity | simpl; lia].
  - exists []. split; [reflexivity | simpl; lia].
Qed.

(** ** The revision with typed fields *)

Lemma attach_nil_event (fields : list TypedFields.Field) :
  TypedFields.attach fields None = None.
Proof.
  unfold TypedFields.attach.
  induction fields as [| field fields IH]; [reflexivity | exact IH].
Qed.

Lemma attach_some_event (fields : list TypedFields.Field) :
  forall d,
    TypedFields.attach fields (Some d)
    = Some (mkEvent (ev_w d) (ev_level d) (ev_stack d)
                    (ev_entries d ++ TypedFields.entries fields)).
Proof.
  unfold TypedFields.attach.
  induction fields as [| field fields IH]; intros [w lv sk es].
  - simpl. now rewrite app_nil_r.
  - simpl. rewrite IH. simpl. now rewrite <- app_assoc.
Qed.

(** An event of the package-level logger with fields attached, sent: one
    record handed to the logger. *)
Lemma typed_event_emit (lvl : Level) (message : string)
    (fields : list TypedFields.Field) (st : State) :
  lvl <> Disabled ->
  Event_Msg (TypedFields.attach fields
               (newEvent (gLevel st) (log_Logger st) lvl)) message st
  = Ret tt (emit lvl (TypedFields.entries fields) message st).
Proof.
  intros Hlvl. unfold emit, newEvent.
  replace (enabled st lvl) with (should (gLevel st) (log_Logger st) lvl)
    by (destruct lvl; try reflexivity; now exfalso).
  destruct (should (gLevel st) (log_Logger st) lvl).
  - rewrite attach_some_event. reflexivity.
  - rewrite attach_nil_event. reflexivity.
Qed.

Lemma typed_error_event_emit (lvl : Level) (os : OS) (err : error)
    (fields : list TypedFields.Field) (st : State) :
  lvl <> Disabled ->
  Event_Msg (TypedFields.attach fields
               (Event_Err (errors_WithStack os err)
                  (Event_Stack (newEvent (gLevel st) (log_Logger st) lvl))))
            (err_Error err) st
  = Ret tt (emit lvl
              (EErr true (errors_WithStack os err) :: TypedFields.entries fields)
              (err_Error err) st).
Proof.
  intros Hlvl. unfold emit, newEvent.
  replace (enabled st lvl) with (should (gLevel st) (log_Logger st) lvl)
    by (destruct lvl; try reflexivity; now exfalso).
  destruct (should (gLevel st) (log_Logger st) lvl).
  - simpl Event_Stack. unfold Event_Err. simpl append_entry.
    rewrite attach_some_event. simpl. now rewrite <- app_assoc.
  - simpl. rewrite attach_nil_event. reflexivity.
Qed.

Lemma typed_leveled_emit f lvl :
  In (f, lvl) TypedFields.leveled_api ->
  forall message fields st,
    f message fields st
    = Ret tt (emit lvl (TypedFields.entries fields) message st).
Proof.
  unfold TypedFields.leveled_api. simpl.
  intros [H | [H | [H | [H | [H | []]]]]];
    injection H as <- <-; intros message fields st;
    apply typed_event_emit; discriminate.
Qed.

Lemma entries_of_pairs (kvs : list (string * string)) :
  TypedFields.entries (TypedFields.of_pairs kvs) = str_entries kvs.
Proof.
  unfold TypedFields.entries, TypedFields.of_pairs, str_entries.
  rewrite map_map. reflexivity.
Qed.

End CallFacts.

(** X6.  A leveled call whose fields are string pairs hands the logger one
    record that carries every pair, in the order given, and no
    diagnostic. *)
Theorem leveled_call_string_pairs :
  forall f lvl (message : string) (kvs : list (string * string)) (st : State),
    In (f, lvl) leveled_api ->
    f message (flatten_pairs kvs) st
    = Ret tt (emit lvl (str_entries kvs) message st).
Proof.
  intros f lvl message kvs st Hf.
  rewrite (leveled_api_logWithFields f lvl Hf), logWithFields_emit.
  now rewrite field_entries_pairs.
Qed.

Lemma leveled_call_string_pairs_witness :
  Warn "disk low" (flatten_pairs [("disk", "sda"); ("free", "3%")]) st_warn
  = Ret tt (emit WarnLevel (str_entries [("disk", "sda"); ("free", "3%")])
                 "disk low" st_warn).
Proof.
  apply (leveled_call_string_pairs Warn WarnLevel "disk low"
           [("disk", "sda"); ("free", "3%")] st_warn).
  simpl. right; right; right; left. reflexivity.
Defined.

Section LeadingPairs.

Lemma leading_pairs_prefix (fields : list Any) :
  exists rest, fields = flatten_pairs (leading_pairs fields) ++ rest.
Proof.
  induction fields as [| x | x y l IH] using pair_induction.
  - now exists [].
  - exists [x]. destruct x; reflexivity.
  - destruct IH as [rest IH].
    destruct x; try (now exists (x :: y :: l); destruct y);
      try (eexists; reflexivity).
    destruct y; try (eexists; reflexivity).
    exists rest. simpl. now rewrite <- IH.
Qed.

Lemma leading_pairs_flatten (kvs : list (string * string)) :
  leading_pairs (flatten_pairs kvs) = kvs.
Proof.
  induction kvs as [| [k v] kvs IH]; [reflexivity |].
  simpl. now rewrite IH.
Qed.

(** The loop on an even-length list followed by the pair of an error
    function: the leading string pairs of the list, then the diagnostic,
    which stands for the first bad pair of the list or for the error
    pair. *)
Lemma loop_entries_error_pair (fields : list Any) (e : error) :
  Nat.odd (length fields) = false ->
  loop_entries (fields ++ [VString "error"; VError e])
  = str_entries (leading_pairs fields) ++ [diag_strings].
Proof.
  induction fields as [| x | x y l IH] using pair_induction; intros Heven.
  - reflexivity.
  - discriminate.
  - destruct x; try reflexivity. destruct y; try reflexivity.
    simpl. rewrite IH; [reflexivity | exact Heven].
Qed.

Lemma str_entries_no_error (kvs : list (string * string)) (x : Entry) :
  In x (str_entries kvs) -> exists k v, x = EStr k v.
Proof.
  unfold str_entries. intros H. apply in_map_iff in H.
  destruct H as ([k v] & <- & _). now exists k, v.
Qed.

End LeadingPairs.

(** X7.  In the revision with untyped fields no error function, called on
    an error that is not nil, ever puts the error in the record, whatever
    fields the caller adds.  When the caller's list has odd length the
    entries of the call are the one entry fields_error for an uneven
    number.  Otherwise they are the string pairs at the front of the
    caller's list, up to its first pair that is not of strings, then the
    one entry fields_error for pairs that must be strings; it stands for
    that pair or, when all the caller's pairs are strings, for the error
    pair.  No entry holds the error. *)
Theorem with_error_never_attaches_error :
  forall f lvl (os : OS) (err : error) (fields : list Any) (st : State),
    In (f, lvl) with_error_api ->
    exists entries,
      f os err fields st = Ret tt (emit lvl entries (err_Error err) st)
      /\ entries
         = (if Nat.odd (length fields)
            then [EInterface "fields_error"
                             (VString "uneven number of key-value pairs")]
            else str_entries (leading_pairs fields)
                 ++ [EInterface "fields_error"
                                (VString "key-value pairs must be strings")])
      /\ (exists rest, fields = flatten_pairs (leading_pairs fields) ++ rest)
      /\ (forall kvs, fields = flatten_pairs kvs -> leading_pairs fields = kvs)
      /\ (forall x, In x entries ->
          (forall stack e, x <> EErr stack e)
          /\ (forall key e, x <> EInterface key (VError e))).
Proof.
  intros f lvl os err fields st Hf.
  rewrite (with_error_api_logWithFields f lvl Hf), logWithFields_emit.
  eexists. split; [reflexivity |].
  assert (Hshape :
            field_entries
              (fields ++ [VString "error"; VError (errors_WithStack os err)])
            = (if Nat.odd (length fields)
               then [diag_uneven]
               else str_entries (leading_pairs fields) ++ [diag_strings])).
  { unfold field_entries. rewrite odd_length_app2.
    destruct (Nat.odd (length fields)) eqn:Hodd; [reflexivity |].
    now apply loop_entries_error_pair. }
  split; [exact Hshape |]. split; [apply leading_pairs_prefix |]. split.
  - intros kvs ->. apply leading_pairs_flatten.
  - intros x Hx. rewrite Hshape in Hx.
    assert (Hkind : (exists k v, x = EStr k v)
                    \/ (exists d, x = EInterface "fields_error" (VString d))).
    { destruct (Nat.odd (length fields)).
      - destruct Hx as [<- | []]. right. eexists. reflexivity.
      - apply in_app_or in Hx. destruct Hx as [Hx | [<- | []]].
        + left. now apply (str_entries_no_error (leading_pairs fields)).
        + right. eexists. reflexivity. }
    destruct Hkind as [(k & v & ->) | (d & ->)]; split; intros; discriminate.
Qed.

Lemma with_error_never_attaches_error_witness :
  exists entries,
    WarnWithError os_ok (errors_New "timeout")
                  [VString "peer"; VString "10.0.0.7"; VString "try"; VInt 3]
                  st_warn
    = Ret tt (emit WarnLevel entries "timeout" st_warn)
    /\ entries
       = [EStr "peer" "10.0.0.7";
          EInterface "fields_error" (VString "key-value pairs must be strings")].
Proof.
  destruct (with_error_never_attaches_error WarnWithError WarnLevel os_ok
              (errors_New "timeout")
              [VString "peer"; VString "10.0.0.7"; VString "try"; VInt 3]
              st_warn)
    as (entries & Hrun & Hshape & _).
  - simpl. right; left. reflexivity.
  - exists entries. split; [exact Hrun | exact Hshape].
Defined.

(** X8.  In the revision with untyped fields every leveled call, and
    every error call on an error that is not nil, returns to its caller,
    at the levels fatal and panic too, and changes nothing in the process
    but the records written, to which it adds at most one.  (On a nil
    error [err.Error()] panics before anything is logged; [error] has no
    nil value, so that call is outside this statement.) *)
Theorem untyped_call_returns :
  forall (call : M unit) (st : State),
    (exists f lvl message fields,
        In (f, lvl) leveled_api /\ call = f message fields)
    \/ (exists f lvl os err fields,
           In (f, lvl) with_error_api /\ call = f os err fields) ->
    exists st' more,
      call st = Ret tt st'
      /\ initialized st' = initialized st
      /\ log_Logger st' = log_Logger st
      /\ TimeFieldFormat st' = TimeFieldFormat st
      /\ gLevel st' = gLevel st
      /\ written st' = written st ++ more
      /\ (length more <= 1)%nat.
Proof.
  intros call st Hcall.
  assert (H : exists lvl message fields,
             call = logWithFields lvl message fields).
  { destruct Hcall as [(f & lvl & message & fields & Hf & ->)
                      | (f & lvl & os & err & fields & Hf & ->)].
    - rewrite (leveled_api_logWithFields f lvl Hf). eauto.
    - rewrite (with_error_api_logWithFields f lvl Hf). eauto. }
  destruct H as (lvl & message & fields & ->).
  rewrite logWithFields_emit.
  destruct (emit_frame lvl (field_entries fields) message st)
    as (F1 & F2 & F3 & F4).
  destruct (emit_at_most_one lvl (field_entries fields) message st)
    as (more & Hw & Hlen).
  exists (emit lvl (field_entries fields) message st), more.
  repeat split; assumption.
Qed.

Lemma untyped_call_returns_witness :
  exists st' more,
    Fatal "cannot continue" [] st_warn = Ret tt st'
    /\ initialized st' = initialized st_warn
    /\ log_Logger st' = log_Logger st_warn
    /\ TimeFieldFormat st' = TimeFieldFormat st_warn
    /\ gLevel st' = gLevel st_warn
    /\ written st' = written st_warn ++ more
    /\ (length more <= 1)%nat.
Proof.
  apply (untyped_call_returns (Fatal "cannot continue" []) st_warn).
  left. exists Fatal, FatalLevel, "cannot continue", [].
  split; [| reflexivity].
  simpl. right; right; right; right; right; left. reflexivity.
Defined.

(** X9.  In the revision with typed fields [Fatal] and [FatalWithError]
    never return: the process exits with status 1 after the record, with
    every field attached, was handed to the logger, and it exits as well
    when the logger filters the fatal level out. *)
Theorem typed_Fatal_exits :
  forall (os : OS) (err : error) (message : string)
         (fields : list TypedFields.Field) (st : State),
    TypedFields.Fatal message fields st
    = Exit 1 (emit FatalLevel (TypedFields.entries fields) message st)
    /\ TypedFields.FatalWithError os err fields st
       = Exit 1 (emit FatalLevel
                   (EErr true (errors_WithStack os err)
                    :: TypedFields.entries fields)
                   (err_Error err) st).
Proof.
  intros os err message fields st. split.
  - unfold TypedFields.Fatal, log_event, bind, get, ret.
    rewrite typed_event_emit by discriminate. reflexivity.
  - unfold TypedFields.FatalWithError, log_event, bind, get, ret.
    rewrite typed_error_event_emit by discriminate. reflexivity.
Qed.

(** X10.  In the revision with typed fields a leveled call that returns
    ([Trace], [Debug], [Info], [Warn], [Error]) hands the logger one
    record of its level that carries every field, in the order given. *)
Theorem typed_leveled_call_attaches_fields :
  forall f lvl (message : string) (fields : list TypedFields.Field)
         (st : State),
    In (f, lvl) TypedFields.leveled_api ->
    f message fields st
    = Ret tt (emit lvl
                (map (fun field =>
                        EStr (TypedFields.Key field) (TypedFields.Value field))
                     fields)
                message st).
Proof.
  intros f lvl message fields st Hf.
  exact (typed_leveled_emit f lvl Hf message fields st).
Qed.

Lemma typed_leveled_call_attaches_fields_witness :
  TypedFields.Info "started" [TypedFields.mkField "port" "8080"] st_fresh
  = Ret tt (emit InfoLevel [EStr "port" "8080"] "started" st_fresh).
Proof.
  apply (typed_leveled_call_attaches_fields TypedFields.Info InfoLevel
           "started" [TypedFields.mkField "port" "8080"] st_fresh).
  simpl. right; right; left. reflexivity.
Defined.

(** X11.  In the revision with typed fields an error call that returns
    ([TraceWithError], [WarnWithError], [ErrorWithError]) hands the logger
    one record whose message is [err.Error()] and whose entries are the
    error wrapped with the stack, entered with the stack flag set, then
    every field in the order given. *)
Theorem typed_with_error_attaches_error :
  forall f lvl (os : OS) (err : error) (fields : list TypedFields.Field)
         (st : State),
    In (f, lvl) TypedFields.with_error_api ->
    f os err fields st
    = Ret tt (emit lvl
                (EErr true (withStack err (runtime_callers os))
                 :: TypedFields.entries fields)
                (err_Error err) st).
Proof.
  intros f lvl os err fields st Hf.
  unfold TypedFields.with_error_api in Hf. simpl in Hf.
  destruct Hf as [H | [H | [H | []]]]; injection H as <- <-;
    apply typed_error_event_emit; discriminate.
Qed.

Lemma typed_with_error_attaches_error_witness :
  TypedFields.WarnWithError os_ok (errors_New "timeout")
                            [TypedFields.mkField "peer" "10.0.0.7"] st_warn
  = Ret tt (emit WarnLevel
              [EErr true (withStack (errors_New "timeout") ["main.main"]);
               EStr "peer" "10.0.0.7"]
              "timeout" st_warn).
Proof.
  apply (typed_with_error_attaches_error TypedFields.WarnWithError WarnLevel
           os_ok (errors_New "timeout")
           [TypedFields.mkField "peer" "10.0.0.7"] st_warn).
  simpl. right; left. reflexivity.
Defined.

(** X12.  On a logger that has no caller hook, such as the one in place
    before [InitLogger], the two revisions of the leveled functions that
    return do the same for string pairs: the call with untyped fields on
    the flattened pairs ends in the state the call with typed fields on
    the same pairs ends in.  (With the caller hook [InitLogger] installs,
    the place reported differs between the revisions, the untyped ones
    calling through [logWithFields]; [ECaller] holds the number of frames
    skipped and not the place, hence the premise.) *)
Theorem leveled_revisions_agree :
  forall f g lvl (message : string) (kvs : list (string * string))
         (st : State),
    In (f, lvl) leveled_api ->
    In (g, lvl) TypedFields.leveled_api ->
    (forall skip, ~ In (ECaller skip) (lg_context (log_Logger st))) ->
    f message (flatten_pairs kvs) st
    = g message (TypedFields.of_pairs kvs) st.
Proof.
  intros f g lvl message kvs st Hf Hg _.
  rewrite (leveled_api_logWithFields f lvl Hf), logWithFields_emit.
  rewrite (typed_leveled_emit g lvl Hg).
  now rewrite field_entries_pairs, entries_of_pairs.
Qed.

Lemma leveled_revisions_agree_witness :
  Debug "cache miss" (flatten_pairs [("key", "user:7")]) st_fresh
  = TypedFields.Debug "cache miss" (TypedFields.of_pairs [("key", "user:7")])
                      st_fresh.
Proof.
  apply (leveled_revisions_agree Debug TypedFields.Debug DebugLevel
           "cache miss" [("key", "user:7")] st_fresh).
  - simpl. right; left. reflexivity.
  - simpl. right; left. reflexivity.
  - intros skip [K | []]. discriminate K.
Defined.

(* ================================================================== *)
(** * Further properties of the initialisation *)
(* ================================================================== *)

Section InitCases.

Variable normalize : string -> Level.
Variable os : OS.

(** The state a first call leaves when its file opens and its collector
    answers. *)
Lemma InitLogger_with_fresh_state (config : Config) (st : State)
    (file : File) (c : Conn) :
  initialized st = false ->
  (LogFilePath config <> "" ->
   os_OpenFile os (LogFilePath config) = inl file) ->
  (LogAnalyserEnabled config = true ->
   net_Dial os "tcp" (LogAnalyserAddress config) = inl c) ->
  InitLogger_with normalize os config st
  = Ret tt
      (mkState true
         (mkLogger
            (match (if Console config then [Stdout] else [])
                   ++ (if LogFilePath config =? "" then [] else [OsFile file])
                   ++ (if LogAnalyserEnabled config
                       then [Logstash (mkLogstashWriter c)] else [])
             with
             | [] => Stdout
             | w :: ws => MultiWriter (w :: ws)
             end)
            (normalize (LogLevel config))
            (fixed_fields os config))
         RFC3339 (gLevel st) (written st)).
Proof.
  intros Hinit Hopen Hdial.
  unfold InitLogger_with, bind, get. rewrite Hinit.
  unfold modify, ret, NewLogstashWriter.
  destruct (String.eqb_spec (LogFilePath config) "") as [Hp | Hp];
    [| rewrite (Hopen Hp)];
    (destruct (LogAnalyserEnabled config);
     [rewrite (Hdial eq_refl) |]);
    destruct (Console config); reflexivity.
Qed.

(** The file cannot be opened: a fatal record on the logger in place, then
    exit; the collector is not dialled. *)
Lemma InitLogger_with_open_fails (config : Config) (st : State) (err : error) :
  initialized st = false ->
  LogFilePath config <> "" ->
  os_OpenFile os (LogFilePath config) = inr err ->
  InitLogger_with normalize os config st
  = Exit 1 (emit FatalLevel [EErr false err] "Failed to open log file"
                 (set_TimeFieldFormat RFC3339 st)).
Proof.
  intros Hinit Hp Hopen.
  unfold InitLogger_with, bind, get. rewrite Hinit.
  apply String.eqb_neq in Hp. rewrite Hp, Hopen.
  unfold modify, log_Fatal_Err_Msg, log_event, bind, get, ret, os_Exit, emit,
    enabled, newEvent.
  simpl.
  destruct (should (gLevel st) (log_Logger st) FatalLevel); reflexivity.
Qed.

(** The collector cannot be dialled and no file is asked for. *)
Lemma InitLogger_with_dial_fails_no_file (config : Config) (st : State)
    (err : error) :
  initialized st = false ->
  LogFilePath config = "" ->
  LogAnalyserEnabled config = true ->
  net_Dial os "tcp" (LogAnalyserAddress config) = inr err ->
  InitLogger_with normalize os config st
  = Exit 1 (emit FatalLevel [EErr false err] "Failed to create Logstash writer"
                 (set_TimeFieldFormat RFC3339 st)).
Proof.
  intros Hinit Hp Hen Hdial.
  unfold InitLogger_with, bind, get. rewrite Hinit.
  unfold NewLogstashWriter. rewrite Hp, Hen, Hdial.
  unfold modify, log_Fatal_Err_Msg, log_event, bind, get, ret, os_Exit, emit,
    enabled, newEvent.
  simpl.
  destruct (should (gLevel st) (log_Logger st) FatalLevel); reflexivity.
Qed.

(** The collector cannot be dialled after the file was opened: the logger
    in place is by then the former one redirected to the file. *)
Lemma InitLogger_with_dial_fails_file (config : Config) (st : State)
    (file : File) (err : error) :
  initialized st = false ->
  LogFilePath config <> "" ->
  os_OpenFile os (LogFilePath config) = inl file ->
  LogAnalyserEnabled config = true ->
  net_Dial os "tcp" (LogAnalyserAddress config) = inr err ->
  InitLogger_with normalize os config st
  = Exit 1 (emit FatalLevel [EErr false err] "Failed to create Logstash writer"
                 (set_log_Logger (Logger_Output (OsFile file) (log_Logger st))
                                 (set_TimeFieldFormat RFC3339 st))).
Proof.
  intros Hinit Hp Hopen Hen Hdial.
  unfold InitLogger_with, bind, get. rewrite Hinit.
  apply String.eqb_neq in Hp.
  unfold NewLogstashWriter. rewrite Hp, Hopen, Hen, Hdial.
  unfold modify, log_Fatal_Err_Msg, log_event, bind, get, ret, os_Exit, emit,
    enabled, newEvent.
  simpl.
  destruct (should (gLevel st) (Logger_Output (OsFile file) (log_Logger st))
                   FatalLevel); reflexivity.
Qed.

(** A first call that returns has opened what the configuration asks. *)
Lemma InitLogger_with_returns_opened (config : Config) (st st' : State) :
  initialized st = false ->
  InitLogger_with normalize os config st = Ret tt st' ->
  (LogFilePath config <> "" ->
   exists file, os_OpenFile os (LogFilePath config) = inl file)
  /\ (LogAnalyserEnabled config = true ->
      exists c, net_Dial os "tcp" (LogAnalyserAddress config) = inl c).
Proof.
  intros Hinit Hrun.
  assert (Hfile : LogFilePath config <> "" ->
                  exists file, os_OpenFile os (LogFilePath config) = inl file).
  { intros Hp. destruct (os_OpenFile os (LogFilePath config)) as [file | err]
      eqn:Hopen; [now exists file |].
    rewrite (InitLogger_with_open_fails config st err Hinit Hp Hopen) in Hrun.
    discriminate. }
  split; [exact Hfile |].
  intros Hen.
  destruct (net_Dial os "tcp" (LogAnalyserAddress config)) as [c | err]
    eqn:Hdial; [now exists c |].
  destruct (String.eqb_spec (LogFilePath config) "") as [Hp | Hp].
  - rewrite (InitLogger_with_dial_fails_no_file config st err
               Hinit Hp Hen Hdial) in Hrun.
    discriminate.
  - destruct (Hfile Hp) as [file Hopen].
    rewrite (InitLogger_with_dial_fails_file config st file err
               Hinit Hp Hopen Hen Hdial) in Hrun.
    discriminate.
Qed.

(** What the call asks of the operating system: the process id, the file
    when a path is given, the collector when it is enabled. *)
Lemma InitLogger_with_footprint (os' : OS) (config : Config) (st : State) :
  os_Getpid os = os_Getpid os' ->
  (LogFilePath config <> "" ->
   os_OpenFile os (LogFilePath config) = os_OpenFile os' (LogFilePath config)) ->
  (LogAnalyserEnabled config = true ->
   net_Dial os "tcp" (LogAnalyserAddress config)
   = net_Dial os' "tcp" (LogAnalyserAddress config)) ->
  InitLogger_with normalize os config st
  = InitLogger_with normalize os' config st.
Proof.
  intros Hpid Hopen Hdial.
  unfold InitLogger_with, bind, get.
  destruct (initialized st); [reflexivity |].
  unfold NewLogstashWriter. rewrite Hpid.
  destruct (String.eqb_spec (LogFilePath config) "") as [Hp | Hp];
    [| rewrite (Hopen Hp)];
    (destruct (LogAnalyserEnabled config); [rewrite (Hdial eq_refl) |]);
    reflexivity.
Qed.

End InitCases.

Section SequenceFacts.

(** In an initialised process every public call of the revision with
    untyped fields is one record handed to the logger. *)
Lemma api_call_emit (call : M unit) (st : State) :
  api_call call ->
  initialized st = true ->
  exists lvl entries message,
    call st = Ret tt (emit lvl entries message st).
Proof.
  intros Hcall Hinit. destruct Hcall as [os config | f lvl message fields Hf
                                        | f lvl os err fields Hf].
  - exists WarnLevel, [], already_initialized.
    apply InitLogger_with_again. exact Hinit.
  - rewrite (leveled_api_logWithFields f lvl Hf), logWithFields_emit. eauto.
  - rewrite (with_error_api_logWithFields f lvl Hf), logWithFields_emit. eauto.
Qed.

End SequenceFacts.

(** X13.  A first [InitLogger] whose log file cannot be opened ends the
    process with status 1, in both revisions.  It hands one fatal record,
    with the error of [os.OpenFile], to the logger that was in place,
    installs no logger, leaves the process uninitialised, and does not
    dial the collector: nothing is asked of [net.Dial]. *)
Theorem InitLogger_open_failure_exits :
  forall (os : OS) (config : Config) (st : State) (err : error),
    initialized st = false ->
    LogFilePath config <> "" ->
    os_OpenFile os (LogFilePath config) = inr err ->
    exists st',
      InitLogger os config st = Exit 1 st'
      /\ TypedFields.InitLogger os config st = Exit 1 st'
      /\ initialized st' = false
      /\ log_Logger st' = log_Logger st
      /\ written st'
         = written st
           ++ (if enabled st FatalLevel
               then [(lg_w (log_Logger st),
                      mkLogRecord FatalLevel
                        (lg_context (log_Logger st) ++ [EErr false err])
                        "Failed to open log file")]
               else []).
Proof.
  intros os config st err Hinit Hp Hopen.
  exists (emit FatalLevel [EErr false err] "Failed to open log file"
               (set_TimeFieldFormat RFC3339 st)).
  split; [| split].
  - now apply InitLogger_with_open_fails.
  - now apply InitLogger_with_open_fails.
  - destruct (emit_frame FatalLevel [EErr false err] "Failed to open log file"
                         (set_TimeFieldFormat RFC3339 st)) as (F1 & F2 & _).
    rewrite F1, F2, emit_written. simpl. auto.
Qed.

Lemma InitLogger_open_failure_exits_witness :
  exists st',
    InitLogger (mkOS (fun _ => inr (errors_New "permission denied"))
                     (fun _ _ => inl 4%Z) 4242%Z [])
               cfg_all st_fresh = Exit 1 st'
    /\ TypedFields.InitLogger
         (mkOS (fun _ => inr (errors_New "permission denied"))
               (fun _ _ => inl 4%Z) 4242%Z [])
         cfg_all st_fresh = Exit 1 st'
    /\ initialized st' = false
    /\ log_Logger st' = log_Logger st_fresh
    /\ written st'
       = written st_fresh
         ++ (if enabled st_fresh FatalLevel
             then [(lg_w (log_Logger st_fresh),
                    mkLogRecord FatalLevel
                      (lg_context (log_Logger st_fresh)
                       ++ [EErr false (errors_New "permission denied")])
                      "Failed to open log file")]
             else []).
Proof.
  apply (InitLogger_open_failure_exits
           (mkOS (fun _ => inr (errors_New "permission denied"))
                 (fun _ _ => inl 4%Z) 4242%Z [])
           cfg_all st_fresh (errors_New "permission denied")).
  - reflexivity.
  - discriminate.
  - reflexivity.
Defined.

(** X14.  A first [InitLogger] whose collector cannot be dialled ends the
    process with status 1, in both revisions, with one fatal record that
    carries the error of [net.Dial].  When no file is asked for, the record
    goes to the logger that was in place.  When the log file was opened
    before, the record goes to the file alone, on the former logger
    redirected to it, and that logger is the one in place at exit. *)
Theorem InitLogger_dial_failure_exits :
  forall (os : OS) (config : Config) (st : State) (err : error),
    initialized st = false ->
    LogAnalyserEnabled config = true ->
    net_Dial os "tcp" (LogAnalyserAddress config) = inr err ->
    let record :=
      mkLogRecord FatalLevel (lg_context (log_Logger st) ++ [EErr false err])
                  "Failed to create Logstash writer" in
    (LogFilePath config = "" ->
     exists st',
       InitLogger os config st = Exit 1 st'
       /\ TypedFields.InitLogger os config st = Exit 1 st'
       /\ initialized st' = false
       /\ log_Logger st' = log_Logger st
       /\ written st'
          = written st
            ++ (if enabled st FatalLevel
                then [(lg_w (log_Logger st), record)] else []))
    /\
    (forall file,
        LogFilePath config <> "" ->
        os_OpenFile os (LogFilePath config) = inl file ->
        exists st',
          InitLogger os config st = Exit 1 st'
          /\ TypedFields.InitLogger os config st = Exit 1 st'
          /\ initialized st' = false
          /\ log_Logger st'
             = mkLogger (OsFile file) (lg_level (log_Logger st))
                        (lg_context (log_Logger st))
          /\ written st'
             = written st
               ++ (if enabled st FatalLevel
                   then [(OsFile file, record)] else [])).
Proof.
  intros os config st err Hinit Hen Hdial record. subst record. split.
  - intros Hp.
    exists (emit FatalLevel [EErr false err] "Failed to create Logstash writer"
                 (set_TimeFieldFormat RFC3339 st)).
    split; [| split].
    + now apply InitLogger_with_dial_fails_no_file.
    + now apply InitLogger_with_dial_fails_no_file.
    + destruct (emit_frame FatalLevel [EErr false err]
                  "Failed to create Logstash writer"
                  (set_TimeFieldFormat RFC3339 st)) as (F1 & F2 & _).
      rewrite F1, F2, emit_written. simpl. auto.
  - intros file Hp Hopen.
    exists (emit FatalLevel [EErr false err] "Failed to create Logstash writer"
                 (set_log_Logger (Logger_Output (OsFile file) (log_Logger st))
                                 (set_TimeFieldFormat RFC3339 st))).
    split; [| split].
    + now apply InitLogger_with_dial_fails_file.
    + now apply InitLogger_with_dial_fails_file.
    + destruct (emit_frame FatalLevel [EErr false err]
                  "Failed to create Logstash writer"
                  (set_log_Logger (Logger_Output (OsFile file) (log_Logger st))
                                  (set_TimeFieldFormat RFC3339 st)))
        as (F1 & F2 & _).
      rewrite F1, F2, emit_written. simpl. auto.
Qed.

Lemma InitLogger_dial_failure_exits_witness :
  exists st',
    InitLogger (mkOS (fun _ => inl 3%Z)
                     (fun _ _ => inr (errors_New "connection refused"))
                     4242%Z [])
               cfg_all st_fresh = Exit 1 st'
    /\ written st'
       = [(OsFile 3%Z,
           mkLogRecord FatalLevel
             [ETimestamp; EErr false (errors_New "connection refused")]
             "Failed to create Logstash writer")].
Proof.
  destruct (InitLogger_dial_failure_exits
              (mkOS (fun _ => inl 3%Z)
                    (fun _ _ => inr (errors_New "connection refused"))
                    4242%Z [])
              cfg_all st_fresh (errors_New "connection refused"))
    as [_ Hfile]; [reflexivity | reflexivity | reflexivity |].
  destruct (Hfile 3%Z) as (st' & Hrun & _ & _ & _ & Hw);
    [discriminate | reflexivity |].
  exists st'. split; [exact Hrun | exact Hw].
Defined.

(** X15.  A first [InitLogger] that returns has every resource the
    configuration asks for: when a path is given the file was opened, and
    when the collector is enabled it was dialled with success.  The
    process never goes on with a part of its writers missing. *)
Theorem InitLogger_returns_only_complete :
  forall (os : OS) (config : Config) (st st' : State),
    initialized st = false ->
    InitLogger os config st = Ret tt st'
    \/ TypedFields.InitLogger os config st = Ret tt st' ->
    (LogFilePath config <> "" ->
     exists file, os_OpenFile os (LogFilePath config) = inl file)
    /\ (LogAnalyserEnabled config = true ->
        exists c, net_Dial os "tcp" (LogAnalyserAddress config) = inl c).
Proof.
  intros os config st st' Hinit [Hrun | Hrun].
  - exact (InitLogger_with_returns_opened _ _ _ _ _ Hinit Hrun).
  - exact (InitLogger_with_returns_opened _ _ _ _ _ Hinit Hrun).
Qed.

Lemma InitLogger_returns_only_complete_witness :
  (LogFilePath cfg_all <> "" ->
   exists file, os_OpenFile os_ok (LogFilePath cfg_all) = inl file)
  /\ (LogAnalyserEnabled cfg_all = true ->
      exists c, net_Dial os_ok "tcp" (LogAnalyserAddress cfg_all) = inl c).
Proof.
  apply (InitLogger_returns_only_complete os_ok cfg_all st_fresh
           (mkState true
              (mkLogger
                 (MultiWriter [Stdout; OsFile 3%Z;
                               Logstash (mkLogstashWriter 4%Z)])
                 WarnLevel (fixed_fields os_ok cfg_all))
              RFC3339 TraceLevel [])).
  - reflexivity.
  - left. reflexivity.
Defined.

(** X16.  A first [InitLogger] whose resources open installs a logger
    whose minimum level is the normalised LogLevel, whose context fields
    are service, pod and pid, in this order, and whose hooks are the
    timestamp and the caller with three frames skipped; no field and no
    hook of the logger in place before is kept.  It sets the time format
    to RFC 3339, leaves zerolog's global level alone and writes no
    record. *)
Theorem InitLogger_installs :
  forall (os : OS) (config : Config) (st : State) (file : File) (c : Conn),
    initialized st = false ->
    (LogFilePath config <> "" ->
     os_OpenFile os (LogFilePath config) = inl file) ->
    (LogAnalyserEnabled config = true ->
     net_Dial os "tcp" (LogAnalyserAddress config) = inl c) ->
    exists st',
      InitLogger os config st = Ret tt st'
      /\ lg_level (log_Logger st') = parseLogLevel (LogLevel config)
      /\ field_part (lg_context (log_Logger st'))
         = [EStr "service" (ServiceName config); EStr "pod" (Pod config);
            EInt "pid" (os_Getpid os)]
      /\ hook_part (lg_context (log_Logger st')) = [ETimestamp; ECaller 3]
      /\ initialized st' = true
      /\ TimeFieldFormat st' = RFC3339
      /\ gLevel st' = gLevel st
      /\ written st' = written st.
Proof.
  intros os config st file c Hinit Hopen Hdial.
  eexists. split.
  - exact (InitLogger_with_fresh_state parseLogLevel os config st file c
             Hinit Hopen Hdial).
  - simpl. repeat split.
Qed.

Lemma InitLogger_installs_witness :
  exists st',
    InitLogger os_ok cfg_all st_fresh = Ret tt st'
    /\ lg_level (log_Logger st') = WarnLevel
    /\ field_part (lg_context (log_Logger st'))
       = [EStr "service" "svc"; EStr "pod" "pod-1"; EInt "pid" 4242%Z]
    /\ hook_part (lg_context (log_Logger st')) = [ETimestamp; ECaller 3]
    /\ initialized st' = true
    /\ TimeFieldFormat st' = RFC3339
    /\ gLevel st' = gLevel st_fresh
    /\ written st' = written st_fresh.
Proof.
  apply (InitLogger_installs os_ok cfg_all st_fresh 3%Z 4%Z); reflexivity.
Defined.

(** X17.  After a first [InitLogger] whose resources open, the logger
    writes to bare standard output exactly when Console is false,
    LogFilePath is empty and LogAnalyserEnabled is false; in every other
    case it writes to a multi-writer over at least one writer. *)
Theorem InitLogger_fallback_iff :
  forall (os : OS) (config : Config) (st : State) (file : File) (c : Conn),
    initialized st = false ->
    (LogFilePath config <> "" ->
     os_OpenFile os (LogFilePath config) = inl file) ->
    (LogAnalyserEnabled config = true ->
     net_Dial os "tcp" (LogAnalyserAddress config) = inl c) ->
    exists st',
      InitLogger os config st = Ret tt st'
      /\ (lg_w (log_Logger st') = Stdout
          <-> (Console config = false /\ LogFilePath config = ""
               /\ LogAnalyserEnabled config = false))
      /\ (lg_w (log_Logger st') <> Stdout ->
          exists w ws, lg_w (log_Logger st') = MultiWriter (w :: ws)).
Proof.
  intros os config st file c Hinit Hopen Hdial.
  eexists. split.
  - exact (InitLogger_with_fresh_state parseLogLevel os config st file c
             Hinit Hopen Hdial).
  - simpl.
    destruct (Console config);
      destruct (String.eqb_spec (LogFilePath config) "") as [Hp | Hp];
      destruct (LogAnalyserEnabled config); simpl;
      (split; [split; [intros K; try discriminate K | intros (K1 & K2 & K3);
                        try discriminate; try (now exfalso)]
              | intros K; try (now exfalso); eauto]);
      auto.
Qed.

Lemma InitLogger_fallback_iff_witness :
  exists st',
    InitLogger os_ok (mkConfig "svc" "" "info" "collector:5000" false false "")
               st_fresh = Ret tt st'
    /\ (lg_w (log_Logger st') = Stdout
        <-> (false = false /\ "" = "" /\ false = false))
    /\ (lg_w (log_Logger st') <> Stdout ->
        exists w ws, lg_w (log_Logger st') = MultiWriter (w :: ws)).
Proof.
  apply (InitLogger_fallback_iff os_ok
           (mkConfig "svc" "" "info" "collector:5000" false false "")
           st_fresh 3%Z 4%Z).
  - reflexivity.
  - intros K. now exfalso.
  - intros K. discriminate K.
Defined.

Section RecordParts.

Lemma field_part_app (l1 l2 : list Entry) :
  field_part (l1 ++ l2) = field_part l1 ++ field_part l2.
Proof. apply filter_app. Qed.

Lemma hook_part_app (l1 l2 : list Entry) :
  hook_part (l1 ++ l2) = hook_part l1 ++ hook_part l2.
Proof. apply filter_app. Qed.

(** String pairs are fields, none of them a hook. *)
Lemma str_entries_parts (kvs : list (string * string)) :
  field_part (str_entries kvs) = str_entries kvs
  /\ hook_part (str_entries kvs) = [].
Proof.
  induction kvs as [| [k v] kvs [IH1 IH2]]; [split; reflexivity |].
  split.
  - change (field_part (str_entries ((k, v) :: kvs)))
      with (EStr k v :: field_part (str_entries kvs)).
    now rewrite IH1.
  - exact IH2.
Qed.

End RecordParts.

(** X18.  From the builder to a record.  For arguments [NewLogger]
    accepts, a first [InitLogger] on the Config it returns (with the
    resources opening), followed by a leveled call with string pairs,
    writes exactly one record when the level of the call is not below the
    normalised logLevel nor below zerolog's global level, and none
    otherwise.  The record goes to the writer installed, has the level of
    the call and the message, and its fields are, in this order, the
    service and pod given to [NewLogger], the pid, then the pairs; its
    hooks are the timestamp and the caller. *)
Theorem configured_logger_writes :
  forall (os : OS) serviceName console pod logFilePath logAnalyserAddress
         logLevel logAnalyserEnabled (config : Config) (st : State)
         (file : File) (c : Conn) f lvl (message : string)
         (kvs : list (string * string)),
    NewLogger serviceName console pod logFilePath logAnalyserAddress logLevel
              logAnalyserEnabled = (config, None) ->
    initialized st = false ->
    (logFilePath <> "" -> os_OpenFile os logFilePath = inl file) ->
    (logAnalyserEnabled = true ->
     net_Dial os "tcp" logAnalyserAddress = inl c) ->
    In (f, lvl) leveled_api ->
    exists st1 record,
      InitLogger os config st = Ret tt st1
      /\ written_of (f message (flatten_pairs kvs) st1)
         = written st
           ++ (if (level_rank (parseLogLevel logLevel) <=? level_rank lvl)%Z
                  && (level_rank (gLevel st) <=? level_rank lvl)%Z
               then [(lg_w (log_Logger st1), record)]
               else [])
      /\ rec_level record = lvl
      /\ rec_message record = message
      /\ field_part (rec_entries record)
         = [EStr "service" serviceName; EStr "pod" pod;
            EInt "pid" (os_Getpid os)]
           ++ str_entries kvs
      /\ hook_part (rec_entries record) = [ETimestamp; ECaller 3].
Proof.
  intros os serviceName console pod path addr logLevel en config st file c
         f lvl message kvs Hnew Hinit Hopen Hdial Hf.
  assert (Hcfg : config = mkConfig serviceName pod logLevel addr en console path).
  { unfold NewLogger in Hnew.
    destruct (negb console && (path =? "") && (addr =? ""));
      [discriminate |].
    destruct ((serviceName =? "") && (pod =? "")); [discriminate |].
    now injection Hnew as <-. }
  subst config.
  eexists.
  exists (mkLogRecord lvl
            (fixed_fields os
               (mkConfig serviceName pod logLevel addr en console path)
             ++ str_entries kvs)
            message).
  split; [| split; [| split; [| split; [| split]]]].
  - exact (InitLogger_with_fresh_state parseLogLevel os
             (mkConfig serviceName pod logLevel addr en console path)
             st file c Hinit Hopen Hdial).
  - rewrite (leveled_api_logWithFields f lvl Hf), logWithFields_emit,
      field_entries_pairs.
    simpl written_of. rewrite emit_written.
    unfold leveled_api in Hf. simpl in Hf.
    destruct Hf as [H | [H | [H | [H | [H | [H | [H | []]]]]]]];
      injection H as _ <-; reflexivity.
  - reflexivity.
  - reflexivity.
  - change (field_part
              (fixed_fields os
                 (mkConfig serviceName pod logLevel addr en console path)
               ++ str_entries kvs)
            = [EStr "service" serviceName; EStr "pod" pod;
               EInt "pid" (os_Getpid os)] ++ str_entries kvs).
    rewrite field_part_app, (proj1 (str_entries_parts kvs)). reflexivity.
  - change (hook_part
              (fixed_fields os
                 (mkConfig serviceName pod logLevel addr en console path)
               ++ str_entries kvs)
            = [ETimestamp; ECaller 3]).
    rewrite hook_part_app, (proj2 (str_entries_parts kvs)). reflexivity.
Qed.

Lemma configured_logger_writes_witness :
  exists st1 record,
    InitLogger os_ok cfg_console st_fresh = Ret tt st1
    /\ written_of
         (Debug "starting" (flatten_pairs [("port", "8080")]) st1)
       = written st_fresh
         ++ (if (level_rank (parseLogLevel "debug") <=? level_rank DebugLevel)%Z
                && (level_rank (gLevel st_fresh) <=? level_rank DebugLevel)%Z
             then [(lg_w (log_Logger st1), record)]
             else [])
    /\ rec_level record = DebugLevel
    /\ rec_message record = "starting"
    /\ field_part (rec_entries record)
       = [EStr "service" "svc"; EStr "pod" "";
          EInt "pid" (os_Getpid os_ok)]
         ++ str_entries [("port", "8080")]
    /\ hook_part (rec_entries record) = [ETimestamp; ECaller 3].
Proof.
  apply (configured_logger_writes os_ok "svc" true "" "" "" "debug" false
           cfg_console st_fresh 3%Z 4%Z Debug DebugLevel "starting"
           [("port", "8080")]).
  - reflexivity.
  - reflexivity.
  - intros K. now exfalso.
  - intros K. discriminate K.
  - simpl. right; left. reflexivity.
Defined.

(** The same calls, evaluated: one debug record on the console, and none
    for a debug call when the configured level is warn. *)
Example configured_console_debug :
  map (fun wr => (fst wr, rec_level (snd wr), rec_message (snd wr),
                  field_part (rec_entries (snd wr))))
      (written_of
         ((InitLogger os_ok cfg_console ;;; Debug "starting" []) st_fresh))
  = [(MultiWriter [Stdout], DebugLevel, "starting",
      [EStr "service" "svc"; EStr "pod" ""; EInt "pid" 4242%Z])]
  /\ map (fun wr => (fst wr, rec_level (snd wr), rec_message (snd wr)))
         (written_of
            ((InitLogger os_ok cfg_all ;;; Debug "x" [] ;;; Warn "x" [])
               st_fresh))
     = [(MultiWriter [Stdout; OsFile 3%Z; Logstash (mkLogstashWriter 4%Z)],
         WarnLevel, "x")].
Proof. split; reflexivity. Qed.

(** X19.  Once the process is initialised, any sequence of public calls of
    the revision with untyped fields, [InitLogger] with any configuration
    among them and the error functions on errors that are not nil, returns
    and leaves the logger, the flag and zerolog's globals as they were;
    the records written only grow, by at most one for each call.  (An
    error function on a nil error panics in [err.Error()]; [error] has no
    nil value, so such a call is in no sequence here.) *)
Theorem initialised_logger_is_final :
  forall (calls : list (M unit)) (st : State),
    Forall api_call calls ->
    initialized st = true ->
    exists st' more,
      seq_calls calls st = Ret tt st'
      /\ initialized st' = true
      /\ log_Logger st' = log_Logger st
      /\ TimeFieldFormat st' = TimeFieldFormat st
      /\ gLevel st' = gLevel st
      /\ written st' = written st ++ more
      /\ (length more <= length calls)%nat.
Proof.
  intros calls. induction calls as [| call calls IH]; intros st Hall Hinit.
  - exists st, []. simpl. rewrite app_nil_r. repeat split; auto.
  - inversion Hall as [| ? ? Hcall Hrest]; subst.
    destruct (api_call_emit call st Hcall Hinit)
      as (lvl & entries & message & Hrun).
    destruct (emit_frame lvl entries message st) as (F1 & F2 & F3 & F4).
    destruct (emit_at_most_one lvl entries message st) as (one & Hw & Hlen).
    destruct (IH (emit lvl entries message st) Hrest)
      as (st' & more & Hseq & G1 & G2 & G3 & G4 & G5 & G6);
      [now rewrite F1 |].
    exists st', (one ++ more).
    simpl seq_calls. unfold bind. rewrite Hrun, Hseq.
    repeat split; try congruence.
    + rewrite G5, Hw. now rewrite app_assoc.
    + rewrite length_app. simpl. lia.
Qed.

Lemma initialised_logger_is_final_witness :
  exists st' more,
    seq_calls [InitLogger os_ok cfg_all;
               Info "ready" [VString "port"; VString "8080"];
               ErrorWithError os_ok (errors_New "boom") []] st_warn
    = Ret tt st'
    /\ initialized st' = true
    /\ log_Logger st' = log_Logger st_warn
    /\ TimeFieldFormat st' = TimeFieldFormat st_warn
    /\ gLevel st' = gLevel st_warn
    /\ written st' = written st_warn ++ more
    /\ (length more <= 3)%nat.
Proof.
  apply (initialised_logger_is_final
           [InitLogger os_ok cfg_all;
            Info "ready" [VString "port"; VString "8080"];
            ErrorWithError os_ok (errors_New "boom") []] st_warn).
  - repeat apply Forall_cons; [| | | apply Forall_nil].
    + exact (api_InitLogger os_ok cfg_all).
    + apply (api_leveled Info InfoLevel "ready"
               [VString "port"; VString "8080"]).
      simpl. right; right; left. reflexivity.
    + apply (api_with_error ErrorWithError ErrorLevel os_ok
               (errors_New "boom") []).
      simpl. right; right; left. reflexivity.
  - reflexivity.
Defined.

(** X20.  What [InitLogger] asks of the operating system is the process
    id, the file when LogFilePath is not empty, and the collector when
    LogAnalyserEnabled is true.  Two systems that agree on these give the
    same outcome: with the collector not enabled nothing is dialled, even
    when an address is configured, and with an empty path no file is
    opened. *)
Theorem InitLogger_os_footprint :
  forall (os os' : OS) (config : Config) (st : State),
    os_Getpid os = os_Getpid os' ->
    (LogFilePath config <> "" ->
     os_OpenFile os (LogFilePath config)
     = os_OpenFile os' (LogFilePath config)) ->
    (LogAnalyserEnabled config = true ->
     net_Dial os "tcp" (LogAnalyserAddress config)
     = net_Dial os' "tcp" (LogAnalyserAddress config)) ->
    InitLogger os config st = InitLogger os' config st
    /\ TypedFields.InitLogger os config st
       = TypedFields.InitLogger os' config st.
Proof.
  intros os os' config st Hpid Hopen Hdial. split.
  - now apply InitLogger_with_footprint.
  - now apply InitLogger_with_footprint.
Qed.

Lemma InitLogger_os_footprint_witness :
  InitLogger os_ok (mkConfig "svc" "" "info" "collector:5000" false true "")
             st_fresh
  = InitLogger (mkOS (fun _ => inr (errors_New "read-only file system"))
                     (fun _ _ => inr (errors_New "connection refused"))
                     4242%Z [])
               (mkConfig "svc" "" "info" "collector:5000" false true "")
               st_fresh.
Proof.
  apply (InitLogger_os_footprint os_ok
           (mkOS (fun _ => inr (errors_New "read-only file system"))
                 (fun _ _ => inr (errors_New "connection refused"))
                 4242%Z [])
           (mkConfig "svc" "" "info" "collector:5000" false true "")
           st_fresh).
  - reflexivity.
  - intros K. now exfalso.
  - intros K. discriminate K.
Defined.
